(** * wsgi.py: a Flask front end that queues a file for a Celery worker

  A shallow embedding of [src/wsgi.py] and of the library calls it makes
  (Python's [base64] and UTF-8 codecs, [random.randint], [time.sleep],
  Flask's [jsonify], the Celery result backend), followed by the
  properties of the job life
  cycle: payload codec, worker execution, status and result queries. *)

From Stdlib Require Import ZArith NArith Ascii String List Lia.
From stdpp Require Import gmap strings.

Open Scope N_scope.

(** ** Python values and exceptions *)

(** The exceptions the code can meet.  [binascii_Error] is Python's
    [binascii.Error]; the two Unicode errors are distinct subclasses of
    [UnicodeError], so an [except UnicodeDecodeError] clause does not catch
    a [UnicodeEncodeError].  [ValueError] is what the [random] module
    raises on an empty range, [TypeError] what the JSON encoder raises on
    an object it cannot serialise. *)
Inductive exn : Type :=
  | UnicodeEncodeError
  | UnicodeDecodeError
  | binascii_Error
  | ValueError
  | TypeError.

(** A computation either returns a value or raises. *)
Inductive result (A : Type) : Type :=
  | Ok (a : A)
  | Raise (e : exn).
Arguments Ok {A} a.
Arguments Raise {A} e.

Definition bind {A B : Type} (m : result A) (k : A -> result B) : result B :=
  match m with
  | Ok a => k a
  | Raise e => Raise e
  end.

Notation "'let*' x ':=' m 'in' k" := (bind m (fun x => k))
  (at level 10, x name, m at level 100, k at level 200).

(** A Python [bytes] object: a sequence of 8-bit bytes. *)
Definition byte := ascii.
Definition bytes := list byte.

(** A Python [str]: a sequence of Unicode code points. *)
Definition str := list N.

(** An ASCII literal of the source as a [str]. *)
Definition str_of_string (s : string) : str :=
  map N_of_ascii (list_ascii_of_string s).

(** ** UTF-8, [str.encode('utf-8')] and [bytes.decode('utf-8')] *)

Module utf8.

Definition cont (x : N) : byte := ascii_of_N (N.lor 0x80 (N.land x 0x3f)).

(** The bytes of one code point; lone surrogates cannot be encoded, and a
    number above 0x10FFFF is not a code point of a [str]. *)
Definition encode_char (ch : N) : result bytes :=
  if ch <? 0x80 then Ok [ascii_of_N ch]
  else if ch <? 0x800 then
    Ok [ascii_of_N (N.lor 0xC0 (N.shiftr ch 6)); cont ch]
  else if (0xD800 <=? ch) && (ch <=? 0xDFFF) then Raise UnicodeEncodeError
  else if ch <? 0x10000 then
    Ok [ascii_of_N (N.lor 0xE0 (N.shiftr ch 12)); cont (N.shiftr ch 6); cont ch]
  else if ch <? 0x110000 then
    Ok [ascii_of_N (N.lor 0xF0 (N.shiftr ch 18)); cont (N.shiftr ch 12);
        cont (N.shiftr ch 6); cont ch]
  else Raise UnicodeEncodeError.

Fixpoint encode (s : str) : result bytes :=
  match s with
  | [] => Ok []
  | ch :: rest =>
      let* b := encode_char ch in
      let* bs := encode rest in
      Ok (b ++ bs)
  end.

Definition is_cont (x : N) : bool := (0x80 <=? x) && (x <=? 0xBF).

Definition low6 (x : N) : N := N.land x 0x3f.

Definition emit (ch : N) (r : result str) : result str :=
  let* s := r in Ok (ch :: s).

(** The strict decoder: shortest form only, no surrogates, nothing above
    0x10FFFF; a truncated sequence at the end is an error as well. *)
Fixpoint decode (bs : bytes) : result str :=
  match bs with
  | [] => Ok []
  | b0 :: r0 =>
      let c0 := N_of_ascii b0 in
      if c0 <? 0x80 then emit c0 (decode r0)
      else if c0 <? 0xC2 then Raise UnicodeDecodeError
      else if c0 <? 0xE0 then
        match r0 with
        | b1 :: r1 =>
            let c1 := N_of_ascii b1 in
            if is_cont c1
            then emit (N.lor (N.shiftl (N.land c0 0x1f) 6) (low6 c1)) (decode r1)
            else Raise UnicodeDecodeError
        | _ => Raise UnicodeDecodeError
        end
      else if c0 <? 0xF0 then
        match r0 with
        | b1 :: b2 :: r2 =>
            let c1 := N_of_ascii b1 in
            let c2 := N_of_ascii b2 in
            if is_cont c1 && is_cont c2
               && negb ((c0 =? 0xE0) && (c1 <? 0xA0))
               && negb ((c0 =? 0xED) && (0xA0 <=? c1))
            then emit (N.lor (N.shiftl (N.land c0 0x0f) 12)
                             (N.lor (N.shiftl (low6 c1) 6) (low6 c2)))
                      (decode r2)
            else Raise UnicodeDecodeError
        | _ => Raise UnicodeDecodeError
        end
      else if c0 <? 0xF5 then
        match r0 with
        | b1 :: b2 :: b3 :: r3 =>
            let c1 := N_of_ascii b1 in
            let c2 := N_of_ascii b2 in
            let c3 := N_of_ascii b3 in
            if is_cont c1 && is_cont c2 && is_cont c3
               && negb ((c0 =? 0xF0) && (c1 <? 0x90))
               && negb ((c0 =? 0xF4) && (0x90 <=? c1))
            then emit (N.lor (N.shiftl (N.land c0 0x07) 18)
                             (N.lor (N.shiftl (low6 c1) 12)
                                    (N.lor (N.shiftl (low6 c2) 6) (low6 c3))))
                      (decode r3)
            else Raise UnicodeDecodeError
        | _ => Raise UnicodeDecodeError
        end
      else Raise UnicodeDecodeError
  end.

End utf8.

(** ** Base64, [base64.urlsafe_b64encode] and [base64.urlsafe_b64decode] *)

Module base64.

(** [binascii]'s encoding table: the standard alphabet of RFC 4648. *)
Definition table_b2a_base64 : list ascii :=
  list_ascii_of_string
    "ABCDEFGHIJKLMNOPQRSTUVWXYZabcdefghijklmnopqrstuvwxyz0123456789+/".

Definition BASE64_PAD : ascii := "="%char.

Definition b2a (v : N) : ascii := nth (N.to_nat v) table_b2a_base64 BASE64_PAD.

(** [binascii.b2a_base64(s, newline=False)]: three bytes give four
    characters; one or two bytes left over are padded with [=]. *)
Fixpoint b2a_base64 (s : bytes) : bytes :=
  match s with
  | [] => []
  | [x] =>
      let a := N_of_ascii x in
      [b2a (N.shiftr a 2); b2a (N.shiftl (N.land a 3) 4); BASE64_PAD; BASE64_PAD]
  | [x; y] =>
      let a := N_of_ascii x in
      let b := N_of_ascii y in
      [b2a (N.shiftr a 2);
       b2a (N.lor (N.shiftl (N.land a 3) 4) (N.shiftr b 4));
       b2a (N.shiftl (N.land b 0xf) 2);
       BASE64_PAD]
  | x :: y :: z :: rest =>
      let a := N_of_ascii x in
      let b := N_of_ascii y in
      let c := N_of_ascii z in
      b2a (N.shiftr a 2)
      :: b2a (N.lor (N.shiftl (N.land a 3) 4) (N.shiftr b 4))
      :: b2a (N.lor (N.shiftl (N.land b 0xf) 2) (N.shiftr c 6))
      :: b2a (N.land c 0x3f)
      :: b2a_base64 rest
  end.

(** [binascii]'s decoding table; [None] marks a byte outside the
    alphabet. *)
Definition table_a2b_base64 (ch : ascii) : option N :=
  let c := N_of_ascii ch in
  if (65 <=? c) && (c <=? 90) then Some (c - 65)
  else if (97 <=? c) && (c <=? 122) then Some (c - 97 + 26)
  else if (48 <=? c) && (c <=? 57) then Some (c - 48 + 52)
  else if c =? 43 then Some 62
  else if c =? 47 then Some 63
  else None.

Definition emit (b : N) (r : result bytes) : result bytes :=
  let* s := r in Ok (ascii_of_N b :: s).

(** The loop of [binascii.a2b_base64] when [strict_mode] is off: bytes
    outside the alphabet are skipped, a pad sequence that completes a
    quad ends the input, and data that stops inside a quad is an
    error.  A byte is produced from the second character of a quad on. *)
Fixpoint a2b_loop (s : bytes) (quad_pos : nat) (leftchar : N) (pads : nat)
  : result bytes :=
  match s with
  | [] =>
      match quad_pos with
      | O => Ok []
      | _ => Raise binascii_Error
      end
  | this_ch :: rest =>
      if Ascii.eqb this_ch BASE64_PAD then
        if (2 <=? quad_pos)%nat then
          if (4 <=? quad_pos + S pads)%nat then Ok []
          else a2b_loop rest quad_pos leftchar (S pads)
        else a2b_loop rest quad_pos leftchar pads
      else
        match table_a2b_base64 this_ch with
        | None => a2b_loop rest quad_pos leftchar pads
        | Some v =>
            match quad_pos with
            | 0%nat => a2b_loop rest 1 v 0
            | 1%nat =>
                emit (N.lor (N.shiftl leftchar 2) (N.shiftr v 4))
                     (a2b_loop rest 2 (N.land v 0x0f) 0)
            | 2%nat =>
                emit (N.lor (N.shiftl leftchar 4) (N.shiftr v 2))
                     (a2b_loop rest 3 (N.land v 0x03) 0)
            | _ =>
                emit (N.lor (N.shiftl leftchar 6) v)
                     (a2b_loop rest 0 0 0)
            end
        end
  end.

Definition a2b_base64 (s : bytes) : result bytes := a2b_loop s 0 0 0.

Definition b64encode (s : bytes) : bytes := b2a_base64 s.

(** [b64decode(s)] with [validate=False]. *)
Definition b64decode (s : bytes) : result bytes := a2b_base64 s.

(** [bytes.translate] with a table made by [bytes.maketrans(x, y)] for
    two-byte [x] and [y]. *)
Definition translate_byte (x1 x2 y1 y2 : ascii) (ch : byte) : byte :=
  if Ascii.eqb ch x1 then y1 else if Ascii.eqb ch x2 then y2 else ch.

Definition translate (x1 x2 y1 y2 : ascii) (s : bytes) : bytes :=
  map (translate_byte x1 x2 y1 y2) s.

Definition _urlsafe_encode_translation : bytes -> bytes :=
  translate "+" "/" "-" "_".
Definition _urlsafe_decode_translation : bytes -> bytes :=
  translate "-" "_" "+" "/".

Definition urlsafe_b64encode (s : bytes) : bytes :=
  _urlsafe_encode_translation (b64encode s).

Definition urlsafe_b64decode (s : bytes) : result bytes :=
  b64decode (_urlsafe_decode_translation s).

End base64.

Definition bytes_of_string (s : string) : bytes := list_ascii_of_string s.

(** ** The program: form handling and the task *)

(** Python values that travel through the result backend and the JSON
    responses. *)
Inductive pyvalue : Type :=
  | PyNone
  | PyInt (n : Z)
  | PyStr (s : string)
  | PyDict (items : list (string * Z))
  | PyExc (e : exn).

(** What the task's side effects read and write.  The generator behind
    the [random] module is represented by the 32-bit words it hands out:
    [random_source i] lists, in order, the words it hands to the [i]-th
    call made on the module, after which it goes on with zeros (so a call
    always meets a word it accepts), and [random_used] counts the calls
    made so far.  [slept] holds the durations handed to [time.sleep],
    oldest first. *)
Record world : Type := mkWorld {
  random_source : nat -> list Z;
  random_used : nat;
  slept : list Z
}.

(** An effectful computation: it may raise, and it changes the world. *)
Definition M (A : Type) : Type := world -> result A * world.

Definition ret {A : Type} (a : A) : M A := fun w => (Ok a, w).

Definition lift {A : Type} (r : result A) : M A := fun w => (r, w).

Definition bindM {A B : Type} (m : M A) (k : A -> M B) : M B := fun w =>
  match m w with
  | (Ok a, w') => k a w'
  | (Raise e, w') => (Raise e, w')
  end.

Notation "'do' x '<-' m ';' k" := (bindM m (fun x => k))
  (at level 10, x name, m at level 100, k at level 200).

(** Python's [random] module, as far as [randint] goes. *)
Module random.

(** [int.bit_length()]. *)
Definition bit_length (n : Z) : Z :=
  if (n =? 0)%Z then 0%Z else (Z.log2 (Z.abs n) + 1)%Z.

(** [genrand_uint32]: the next 32-bit word of the generator, and the
    words that follow it; past the listed words, zeros. *)
Definition genrand_uint32 (tape : list Z) : Z * list Z :=
  match tape with
  | [] => (0%Z, [])
  | word :: tape' => ((word mod 2 ^ 32)%Z, tape')
  end.

(** The loop of [getrandbits] for more than 32 bits: [words] words, the
    least significant first; of the last one the high bits are kept. *)
Fixpoint getrandbits_words (words : nat) (k : Z) (tape : list Z)
  : Z * list Z :=
  match words with
  | O => (0%Z, tape)
  | S words' =>
      let (r, tape1) := genrand_uint32 tape in
      let r := if (k <? 32)%Z then Z.shiftr r (32 - k) else r in
      let (high, tape2) := getrandbits_words words' (k - 32) tape1 in
      ((r + Z.shiftl high 32)%Z, tape2)
  end.

(** [getrandbits(k)]: an integer [r] with [0 <= r < 2**k]; for up to 32
    bits, the high bits of one word. *)
Definition getrandbits (k : Z) (tape : list Z) : result (Z * list Z) :=
  if (k <? 0)%Z then Raise ValueError
  else if (k =? 0)%Z then Ok (0%Z, tape)
  else if (k <=? 32)%Z then
    let (r, tape1) := genrand_uint32 tape in
    Ok (Z.shiftr r (32 - k), tape1)
  else Ok (getrandbits_words (Z.to_nat ((k - 1) / 32 + 1)) k tape).

(** [while r >= n: r = getrandbits(k)], for at most [fuel] further
    draws. *)
Fixpoint randbelow_loop (fuel : nat) (n k r : Z) (tape : list Z)
  : result Z :=
  if (r >=? n)%Z then
    match fuel with
    | O => Ok r
    | S fuel' =>
        match getrandbits k tape with
        | Ok (r', tape') => randbelow_loop fuel' n k r' tape'
        | Raise e => Raise e
        end
    end
  else Ok r.

(** [_randbelow(n)], defined for [n > 0] as the source says: numbers of
    [n.bit_length()] bits are drawn until one is below [n].  Past the
    listed words the generator hands out zeros, which are accepted, so
    for [n > 0] the loop ends before the fuel does; for [n <= 0], where the
    source's loop does not end, the value is immaterial, and [randrange]
    does not call it there. *)
Definition _randbelow (n : Z) (tape : list Z) : result Z :=
  let k := bit_length n in
  match getrandbits k tape with
  | Ok (r, tape') => randbelow_loop (S (length tape')) n k r tape'
  | Raise e => Raise e
  end.

(** [randrange(start, stop)], with the default step. *)
Definition randrange (start stop : Z) : M Z := fun w =>
  let width := (stop - start)%Z in
  if (width >? 0)%Z then
    let w' := mkWorld (random_source w) (S (random_used w)) (slept w) in
    match _randbelow width (random_source w (random_used w)) with
    | Ok r => (Ok (start + r)%Z, w')
    | Raise e => (Raise e, w')
    end
  else (Raise ValueError, w).

(** [randint(a, b)]: a random integer [n] with [a <= n <= b]. *)
Definition randint (a b : Z) : M Z := randrange a (b + 1).

End random.

(** [time.sleep(secs)]. *)
Definition sleep (secs : Z) : M unit := fun w =>
  (Ok tt, mkWorld (random_source w) (random_used w) (slept w ++ [secs])).

(** [form.file.data.stream.read()] gives the uploaded bytes; the form is
    represented by them.  The function returns a 1-tuple, represented by
    its only element. *)
Definition handle_form (form : bytes) : result str :=
  let contents := form in
  let* contents := utf8.decode (base64.urlsafe_b64encode contents) in
  Ok contents.

(** [s.count(ch)] for a one-character [ch], and [len(s)]. *)
Definition count (s : str) (ch : N) : Z :=
  Z.of_nat (length (List.filter (N.eqb ch) s)).
Definition len (s : str) : Z := Z.of_nat (length s).

Definition newline : N := 10.

(** The expression guarded by [try] in [my_task]. *)
Definition decode_contents (contents : str) : result str :=
  let* b := utf8.encode contents in
  let* b := base64.urlsafe_b64decode b in
  utf8.decode b.

(** The value bound to [rv] by the [try] / [except UnicodeDecodeError] /
    [else] statement; any other exception leaves the function. *)
Definition my_task_rv (contents : str) : result pyvalue :=
  match decode_contents contents with
  | Raise UnicodeDecodeError => Ok (PyStr "failed to decode.")
  | Raise e => Raise e
  | Ok contents =>
      Ok (PyDict [("lines", count contents newline);
                  ("characters", len contents)])
  end.

Definition my_task (contents : str) : M pyvalue :=
  do rv <- lift (my_task_rv contents);
  do secs <- random.randint 5 10;
  do _ <- sleep secs;
  ret rv.

(** A world whose generator hands every call the word whose three high
    bits are [k], and in which nothing has slept yet. *)
Definition quiet (k : Z) : world := mkWorld (fun _ => [Z.shiftl k 29]) 0 [].

(** ** Celery: result backend, task handles, broker and worker *)

(** The states a client can observe. *)
Inductive state : Type := PENDING | SUCCESS | FAILURE.

Definition state_name (s : state) : string :=
  match s with
  | PENDING => "PENDING"
  | SUCCESS => "SUCCESS"
  | FAILURE => "FAILURE"
  end.

(** [celery.states.READY_STATES], as far as the three states go. *)
Definition terminal (s : state) : bool :=
  match s with
  | PENDING => false
  | SUCCESS | FAILURE => true
  end.

(** Modelled from the spec: the Job Store (Celery's result backend, which
    is not part of the repository) is a keyed store that holds, for a job
    identifier, the terminal outcome the worker wrote: the value the task
    returned, or the exception that left it.  An identifier without an
    entry is pending and has no result. *)
Module AsyncResult.

(** [AsyncResult(task, app=celery)]: the identifier and the backend the
    handle reads; one request reads one snapshot of the backend. *)
Record t : Type := make {
  task_id : string;
  backend : gmap string (result pyvalue)
}.

Definition status (task : t) : state :=
  match backend task !! task_id task with
  | None => PENDING
  | Some (Ok _) => SUCCESS
  | Some (Raise _) => FAILURE
  end.

(** The return value of the task, the exception instance when it raised,
    [None] while the job is pending. *)
Definition result (task : t) : pyvalue :=
  match backend task !! task_id task with
  | None => PyNone
  | Some (Ok retval) => retval
  | Some (Raise e) => PyExc e
  end.

Definition successful (task : t) : bool :=
  match status task with
  | SUCCESS => true
  | _ => false
  end.

End AsyncResult.

(** ** Flask routes *)

(** What a view function hands back to Flask. *)
Inductive response : Type :=
  | json_response (body : list (string * pyvalue))
  | redirect (location : string)
  | render_template (template : string) (task : AsyncResult.t).

(** What Flask's JSON provider can serialise: [None], numbers, strings and
    mappings of these; an exception instance is not among them. *)
Definition serializable (v : pyvalue) : bool :=
  match v with
  | PyExc _ => false
  | _ => true
  end.

(** [jsonify] on keyword arguments: the response whose body is the JSON
    object of the keyword arguments; the encoder raises [TypeError] on a
    value it cannot serialise. *)
Definition jsonify (kwargs : list (string * pyvalue)) : result response :=
  if forallb (fun kv => serializable (snd kv)) kwargs
  then Ok (json_response kwargs)
  else Raise TypeError.

(** A message passed to [flash], with its category. *)
Record flashed : Type := flash { message : string; category : string }.

Definition dquote : string := String (ascii_of_nat 34) EmptyString.

(** [url_for] on the two routes that are linked to. *)
Definition url_for_results (task : string) : string := "/results/" +:+ task.
Definition url_for_home : string := "/".

(** The route [/check/<task>]. *)
Definition check (celery : gmap string (result pyvalue)) (task : string)
  : result response :=
  let task := AsyncResult.make task celery in
  if negb (AsyncResult.successful task) then
    jsonify [("task_id", PyStr (AsyncResult.task_id task));
             ("status", PyStr (state_name (AsyncResult.status task)));
             ("result", AsyncResult.result task)]
  else
    jsonify [("task_id", PyStr (AsyncResult.task_id task));
             ("status", PyStr (state_name (AsyncResult.status task)))].

(** The route [/results/<task>]; the messages flashed come first. *)
Definition results (celery : gmap string (result pyvalue)) (task : string)
  : list flashed * response :=
  let task := AsyncResult.make task celery in
  if negb (AsyncResult.successful task) then
    let url := url_for_results (AsyncResult.task_id task) in
    let markup :=
      "Task <code><a href=" +:+ dquote +:+ url +:+ dquote +:+ ">"
      +:+ AsyncResult.task_id task +:+ "</a></code> is not yet complete." in
    ([flash markup "warning"], redirect url_for_home)
  else
    ([], render_template "results.html" task).

(** A field of a JSON object, [None] when the key is absent. *)
Fixpoint field (key : string) (kwargs : list (string * pyvalue))
  : option pyvalue :=
  match kwargs with
  | [] => None
  | (k, v) :: rest => if String.eqb k key then Some v else field key rest
  end.

Definition json_field (key : string) (r : response) : option pyvalue :=
  match r with
  | json_response kwargs => field key kwargs
  | _ => None
  end.

(** ** The system: broker, backend and worker *)

(** Modelled from the spec: the Job Broker Channel keeps the submitted
    jobs by identifier and may hand a job to a worker more than once
    (at-least-once delivery); the Worker Executor runs the task and writes
    its outcome to the Job Store under the job's identifier. *)
Record system : Type := mkSystem {
  jobs : gmap string str;
  store : gmap string (result pyvalue);
  env : world
}.

Definition initial (w : world) : system := mkSystem ∅ ∅ w.

(** [my_task.delay(contents)]: the job is recorded under the identifier
    Celery draws for it; an identifier is never drawn twice. *)
Definition delay (task_id : string) (contents : str) (s : system)
  : option system :=
  match jobs s !! task_id with
  | Some _ => None
  | None => Some (mkSystem (<[task_id := contents]> (jobs s)) (store s) (env s))
  end.

(** The submitting half of [home] for a form that validates. *)
Definition home (task_id : string) (form : bytes) (s : system)
  : option system :=
  match handle_form form with
  | Ok args => delay task_id args s
  | Raise _ => Some s
  end.

(** One delivery: the worker runs [my_task] on the job's payload and
    settles the job with what came out. *)
Definition deliver (task_id : string) (s : system) : option system :=
  match jobs s !! task_id with
  | None => None
  | Some contents =>
      let (r, w) := my_task contents (env s) in
      Some (mkSystem (jobs s) (<[task_id := r]> (store s)) w)
  end.

Inductive event : Type :=
  | Upload (task_id : string) (form : bytes)
  | Delay (task_id : string) (contents : str)
  | Deliver (task_id : string).

Definition step (e : event) (s : system) : option system :=
  match e with
  | Upload task_id form => home task_id form s
  | Delay task_id contents => delay task_id contents s
  | Deliver task_id => deliver task_id s
  end.

Fixpoint run (evs : list event) (s : system) : option system :=
  match evs with
  | [] => Some s
  | e :: rest =>
      match step e s with
      | Some s' => run rest s'
      | None => None
      end
  end.

Definition reachable (s : system) : Prop :=
  exists w evs, run evs (initial w) = Some s.

(** ** Vocabulary of the statements and proofs *)

Module vocabulary.
Import base64.

Definition all_bytes : list byte := map ascii_of_nat (seq 0 256).

(** The character that stands for the sextet [v] on the wire, and the
    same character as the decoder's table sees it. *)
Definition wire (v : N) : byte := translate_byte "+" "/" "-" "_" (b2a v).
Definition seen (v : N) : byte := translate_byte "-" "_" "+" "/" (wire v).

Definition sextets : list N := map N.of_nat (seq 0 64).

(** The sextets the encoder cuts out of the bytes [x], [y], [z]. *)
Definition s1 (x : byte) : N := N.shiftr (N_of_ascii x) 2.
Definition s2 (x y : byte) : N :=
  N.lor (N.shiftl (N.land (N_of_ascii x) 3) 4) (N.shiftr (N_of_ascii y) 4).
Definition s2_tail (x : byte) : N := N.shiftl (N.land (N_of_ascii x) 3) 4.
Definition s3 (y z : byte) : N :=
  N.lor (N.shiftl (N.land (N_of_ascii y) 0xf) 2) (N.shiftr (N_of_ascii z) 6).
Definition s3_tail (y : byte) : N := N.shiftl (N.land (N_of_ascii y) 0xf) 2.
Definition s4 (z : byte) : N := N.land (N_of_ascii z) 0x3f.

Definition sextet_check (x y : byte) : bool :=
  (s1 x <? 64) && (s2 x y <? 64) && (s2_tail x <? 64)
  && (s3 x y <? 64) && (s3_tail x <? 64) && (s4 x <? 64).

(** What the decoder's shifts rebuild from those sextets. *)
Definition regroup_check (x y : byte) : bool :=
  Ascii.eqb (ascii_of_N (N.lor (N.shiftl (s1 x) 2) (N.shiftr (s2 x y) 4))) x
  && Ascii.eqb (ascii_of_N (N.lor (N.shiftl (s1 x) 2) (N.shiftr (s2_tail x) 4))) x
  && (N.land (s2 x y) 0x0f =? N.shiftr (N_of_ascii y) 4)
  && Ascii.eqb (ascii_of_N (N.lor (N.shiftl (N.shiftr (N_of_ascii x) 4) 4)
                                  (N.shiftr (s3 x y) 2))) x
  && Ascii.eqb (ascii_of_N (N.lor (N.shiftl (N.shiftr (N_of_ascii x) 4) 4)
                                  (N.shiftr (s3_tail x) 2))) x
  && (N.land (s3 x y) 0x03 =? N.shiftr (N_of_ascii y) 6)
  && Ascii.eqb (ascii_of_N (N.lor (N.shiftl (N.shiftr (N_of_ascii x) 6) 6)
                                  (s4 x))) x.

Definition is_ascii (b : byte) : bool := N_of_ascii b <? 0x80.

(** The 64 characters of the URL-safe alphabet, by code point. *)
Definition urlsafe_alphabet (c : N) : bool :=
  ((65 <=? c) && (c <=? 90)) || ((97 <=? c) && (c <=? 122))
  || ((48 <=? c) && (c <=? 57)) || (c =? 45) || (c =? 95).

Definition pad_code : N := 61.

Definition printable (c : N) : bool := (0x20 <? c) && (c <? 0x7f).

(** What [randint(5, 10)] returns in the world [w], and the world after
    that draw and the sleep that follows. *)
Definition drawn (w : world) : Z :=
  match random.randint 5 10 w with
  | (Ok secs, _) => secs
  | (Raise _, _) => 0%Z
  end.

Definition after_sleep (w : world) : world :=
  mkWorld (random_source w) (S (random_used w)) (slept w ++ [drawn w]).

Definition statistics (c : str) : pyvalue :=
  PyDict [("lines", Z.of_nat (count_occ N.eq_dec c newline));
          ("characters", Z.of_nat (length c))].

Definition status_of (s : system) (task : string) : state :=
  AsyncResult.status (AsyncResult.make task (store s)).

Definition result_of (s : system) (task : string) : pyvalue :=
  AsyncResult.result (AsyncResult.make task (store s)).

(** Every stored outcome is what [my_task] gives on the payload that was
    submitted under that identifier. *)
Definition settled_by_task (s : system) : Prop :=
  forall task r,
    store s !! task = Some r ->
    exists contents, jobs s !! task = Some contents /\ r = my_task_rv contents.

Definition byte_ff : byte := ascii_of_N 255.

Definition job : string := "5f2b6c1e".

End vocabulary.

Import vocabulary.

Example urlsafe_b64encode_ex1 :
  base64.urlsafe_b64encode (bytes_of_string "a") = bytes_of_string "YQ==".
Proof. reflexivity. Qed.

(** ** Enumerating bytes *)

Lemma all_bytes_complete (x : byte) : In x all_bytes.
Proof.
  unfold all_bytes. apply in_map_iff. exists (nat_of_ascii x). split.
  - apply ascii_nat_embedding.
  - apply in_seq. pose proof (nat_ascii_bounded x). lia.
Qed.

Lemma forall_byte (P : byte -> bool) :
  forallb P all_bytes = true -> forall x, P x = true.
Proof.
  intros H x. rewrite forallb_forall in H. apply H, all_bytes_complete.
Qed.

Lemma forall_byte2 (P : byte -> byte -> bool) :
  forallb (fun x => forallb (P x) all_bytes) all_bytes = true ->
  forall x y, P x y = true.
Proof.
  intros H x y. apply forall_byte. revert x. apply forall_byte. exact H.
Qed.

Module base64_facts.
Import base64.

Lemma sextets_complete v : v < 64 -> In v sextets.
Proof.
  intros H. unfold sextets. apply in_map_iff. exists (N.to_nat v). split.
  - apply N2Nat.id.
  - apply in_seq. lia.
Qed.

Lemma seen_spec_all :
  forallb (fun v => negb (Ascii.eqb (seen v) BASE64_PAD)
                    && match table_a2b_base64 (seen v) with
                       | Some w => w =? v
                       | None => false
                       end) sextets = true.
Proof. vm_compute. reflexivity. Qed.

Lemma seen_spec v :
  v < 64 ->
  Ascii.eqb (seen v) BASE64_PAD = false /\ table_a2b_base64 (seen v) = Some v.
Proof.
  intros Hv. pose proof seen_spec_all as H. rewrite forallb_forall in H.
  specialize (H v (sextets_complete v Hv)).
  apply andb_prop in H as [H1 H2]. split.
  - now apply negb_true_iff in H1.
  - destruct (table_a2b_base64 (seen v)) as [w|]; [|discriminate].
    apply N.eqb_eq in H2. now subst.
Qed.

(** One data character seen by the decoder's loop. *)
Lemma a2b_loop_seen v rest quad_pos leftchar pads :
  v < 64 ->
  a2b_loop (seen v :: rest) quad_pos leftchar pads =
  match quad_pos with
  | 0%nat => a2b_loop rest 1 v 0
  | 1%nat => emit (N.lor (N.shiftl leftchar 2) (N.shiftr v 4))
                  (a2b_loop rest 2 (N.land v 0x0f) 0)
  | 2%nat => emit (N.lor (N.shiftl leftchar 4) (N.shiftr v 2))
                  (a2b_loop rest 3 (N.land v 0x03) 0)
  | _ => emit (N.lor (N.shiftl leftchar 6) v) (a2b_loop rest 0 0 0)
  end.
Proof.
  intros Hv. destruct (seen_spec v Hv) as [Hpad Htab].
  cbn [a2b_loop]. rewrite Hpad, Htab. reflexivity.
Qed.

Lemma sextet_check_all x y : sextet_check x y = true.
Proof. apply forall_byte2. vm_compute. reflexivity. Qed.

Lemma sextet_bounds x y :
  s1 x < 64 /\ s2 x y < 64 /\ s2_tail x < 64
  /\ s3 x y < 64 /\ s3_tail x < 64 /\ s4 x < 64.
Proof.
  pose proof (sextet_check_all x y) as H. unfold sextet_check in H.
  repeat (apply andb_prop in H as [H ?]).
  repeat split; now apply N.ltb_lt.
Qed.

Lemma regroup_check_all x y : regroup_check x y = true.
Proof. apply forall_byte2. vm_compute. reflexivity. Qed.

Lemma regroup x y :
  ascii_of_N (N.lor (N.shiftl (s1 x) 2) (N.shiftr (s2 x y) 4)) = x
  /\ ascii_of_N (N.lor (N.shiftl (s1 x) 2) (N.shiftr (s2_tail x) 4)) = x
  /\ N.land (s2 x y) 0x0f = N.shiftr (N_of_ascii y) 4
  /\ ascii_of_N (N.lor (N.shiftl (N.shiftr (N_of_ascii x) 4) 4)
                       (N.shiftr (s3 x y) 2)) = x
  /\ ascii_of_N (N.lor (N.shiftl (N.shiftr (N_of_ascii x) 4) 4)
                       (N.shiftr (s3_tail x) 2)) = x
  /\ N.land (s3 x y) 0x03 = N.shiftr (N_of_ascii y) 6
  /\ ascii_of_N (N.lor (N.shiftl (N.shiftr (N_of_ascii x) 6) 6) (s4 x)) = x.
Proof.
  pose proof (regroup_check_all x y) as H. unfold regroup_check in H.
  repeat (apply andb_prop in H as [H ?]).
  repeat split;
    first [now apply Ascii.eqb_eq | now apply N.eqb_eq].
Qed.

Lemma seen_map v l :
  _urlsafe_decode_translation (_urlsafe_encode_translation (b2a v :: l)) =
  seen v :: _urlsafe_decode_translation (_urlsafe_encode_translation l).
Proof. reflexivity. Qed.

Lemma pad_map l :
  _urlsafe_decode_translation (_urlsafe_encode_translation (BASE64_PAD :: l)) =
  BASE64_PAD :: _urlsafe_decode_translation (_urlsafe_encode_translation l).
Proof. reflexivity. Qed.

(** Induction three bytes at a time, the way the encoder consumes its
    input. *)
Lemma bytes_ind3 (P : bytes -> Prop) :
  P [] ->
  (forall x, P [x]) ->
  (forall x y, P [x; y]) ->
  (forall x y z rest, P rest -> P (x :: y :: z :: rest)) ->
  forall s, P s.
Proof.
  intros H0 H1 H2 H3.
  fix IH 1.
  intros [|x [|y [|z rest]]];
    [apply H0 | apply H1 | apply H2 | apply H3, IH].
Qed.

Lemma a2b_b2a (s : bytes) :
  a2b_loop (_urlsafe_decode_translation
              (_urlsafe_encode_translation (b2a_base64 s))) 0 0 0 = Ok s.
Proof.
  induction s as [|x|x y|x y z rest IH] using bytes_ind3.
  - reflexivity.
  - cbn [b2a_base64]. fold (s1 x) (s2_tail x).
    destruct (sextet_bounds x x) as (B1 & _ & B2 & _).
    destruct (regroup x x) as (_ & R & _).
    rewrite !seen_map, !pad_map.
    rewrite !a2b_loop_seen by assumption.
    cbn. rewrite R. reflexivity.
  - cbn [b2a_base64]. fold (s1 x) (s2 x y) (s3_tail y).
    destruct (sextet_bounds x y) as (B1 & B2 & _).
    destruct (sextet_bounds y y) as (_ & _ & _ & _ & B3 & _).
    destruct (regroup x y) as (R1 & _ & L2 & _).
    destruct (regroup y y) as (_ & _ & _ & _ & R2 & _).
    rewrite !seen_map, !pad_map.
    rewrite !a2b_loop_seen by assumption.
    rewrite L2. cbn. rewrite R1, R2. reflexivity.
  - cbn [b2a_base64]. fold (s1 x) (s2 x y) (s3 y z) (s4 z).
    destruct (sextet_bounds x y) as (B1 & B2 & _).
    destruct (sextet_bounds y z) as (_ & _ & _ & B3 & _).
    destruct (sextet_bounds z z) as (_ & _ & _ & _ & _ & B4).
    destruct (regroup x y) as (R1 & _ & L2 & _).
    destruct (regroup y z) as (_ & _ & _ & R2 & _ & L3 & _).
    destruct (regroup z z) as (_ & _ & _ & _ & _ & _ & R3).
    rewrite !seen_map.
    rewrite !a2b_loop_seen by assumption.
    rewrite IH, L2, L3. unfold emit, bind. rewrite R1, R2, R3. reflexivity.
Qed.

(** [urlsafe_b64decode] undoes [urlsafe_b64encode] on every byte
    sequence. *)
Lemma urlsafe_b64decode_b64encode (s : bytes) :
  urlsafe_b64decode (urlsafe_b64encode s) = Ok s.
Proof. apply a2b_b2a. Qed.

End base64_facts.

Example my_task_three_lines :
  match handle_form (bytes_of_string "a
b
c") with
  | Ok p => fst (my_task p (quiet 0)) = Ok (PyDict [("lines", 2%Z); ("characters", 5%Z)])
  | Raise _ => False
  end.
Proof. vm_compute. reflexivity. Qed.

(** ** Facts about the codecs *)

Module codec_facts.
Import base64 base64_facts.

Lemma utf8_decode_ascii (bs : bytes) :
  forallb is_ascii bs = true -> utf8.decode bs = Ok (map N_of_ascii bs).
Proof.
  induction bs as [|b bs IH]; [reflexivity|].
  cbn [forallb]. intros [Hb Hbs]%andb_prop.
  cbn [utf8.decode map]. unfold is_ascii in Hb. rewrite Hb, (IH Hbs).
  reflexivity.
Qed.

Lemma utf8_encode_ascii (bs : bytes) :
  forallb is_ascii bs = true -> utf8.encode (map N_of_ascii bs) = Ok bs.
Proof.
  induction bs as [|b bs IH]; [reflexivity|].
  cbn [forallb]. intros [Hb Hbs]%andb_prop.
  cbn [utf8.encode map]. unfold utf8.encode_char, is_ascii in *.
  rewrite Hb, (IH Hbs). cbn. now rewrite ascii_N_embedding.
Qed.

Lemma wire_alphabet_all :
  forallb (fun v => urlsafe_alphabet (N_of_ascii (wire v))) sextets = true.
Proof. vm_compute. reflexivity. Qed.

Lemma wire_alphabet v : v < 64 -> urlsafe_alphabet (N_of_ascii (wire v)) = true.
Proof.
  intros Hv. pose proof wire_alphabet_all as H. rewrite forallb_forall in H.
  apply H, sextets_complete, Hv.
Qed.

Lemma wire_map v l :
  _urlsafe_encode_translation (b2a v :: l) =
  wire v :: _urlsafe_encode_translation l.
Proof. reflexivity. Qed.

(** The shape of an encoded payload: characters of the alphabet, then at
    most two pad characters. *)
Lemma urlsafe_b64encode_shape (s : bytes) :
  exists body pad,
    map N_of_ascii (urlsafe_b64encode s) = body ++ pad
    /\ forallb urlsafe_alphabet body = true
    /\ (pad = [] \/ pad = [pad_code] \/ pad = [pad_code; pad_code]).
Proof.
  unfold urlsafe_b64encode, b64encode.
  induction s as [|x|x y|x y z rest IH] using bytes_ind3.
  - exists [], []. auto.
  - destruct (sextet_bounds x x) as (B1 & _ & B2 & _).
    exists [N_of_ascii (wire (s1 x)); N_of_ascii (wire (s2_tail x))],
           [pad_code; pad_code].
    split; [reflexivity|]. split; [|auto].
    cbn [forallb]. now rewrite !wire_alphabet.
  - destruct (sextet_bounds x y) as (B1 & B2 & _).
    destruct (sextet_bounds y y) as (_ & _ & _ & _ & B3 & _).
    exists [N_of_ascii (wire (s1 x)); N_of_ascii (wire (s2 x y));
            N_of_ascii (wire (s3_tail y))], [pad_code].
    split; [reflexivity|]. split; [|auto].
    cbn [forallb]. now rewrite !wire_alphabet.
  - destruct IH as (body & pad & E & Hbody & Hpad).
    destruct (sextet_bounds x y) as (B1 & B2 & _).
    destruct (sextet_bounds y z) as (_ & _ & _ & B3 & _).
    destruct (sextet_bounds z z) as (_ & _ & _ & _ & _ & B4).
    exists (N_of_ascii (wire (s1 x)) :: N_of_ascii (wire (s2 x y))
            :: N_of_ascii (wire (s3 y z)) :: N_of_ascii (wire (s4 z)) :: body),
           pad.
    split; [|split; [|exact Hpad]].
    + cbn [b2a_base64]. fold (s1 x) (s2 x y) (s3 y z) (s4 z).
      rewrite !wire_map. cbn [map]. rewrite E. reflexivity.
    + cbn [forallb]. now rewrite !wire_alphabet, Hbody.
Qed.

Lemma alphabet_printable c :
  urlsafe_alphabet c = true \/ c = pad_code -> printable c = true.
Proof.
  unfold urlsafe_alphabet, printable, pad_code. intros [H| ->]; [|reflexivity].
  apply andb_true_iff.
  repeat (apply orb_prop in H as [H|H]);
    try apply andb_prop in H as [H1 H2];
    rewrite ?N.leb_le, ?N.eqb_eq, ?N.ltb_lt in *; lia.
Qed.

Lemma shape_members (l body pad : list N) c :
  l = body ++ pad ->
  forallb urlsafe_alphabet body = true ->
  (pad = [] \/ pad = [pad_code] \/ pad = [pad_code; pad_code]) ->
  In c l -> urlsafe_alphabet c = true \/ c = pad_code.
Proof.
  intros -> Hbody Hpad [Hin|Hin]%in_app_or.
  - left. rewrite forallb_forall in Hbody. now apply Hbody.
  - right. destruct Hpad as [->|[->| ->]]; cbn in Hin; intuition.
Qed.

Lemma urlsafe_b64encode_ascii (s : bytes) :
  forallb is_ascii (urlsafe_b64encode s) = true.
Proof.
  apply forallb_forall. intros b Hb.
  destruct (urlsafe_b64encode_shape s) as (body & pad & E & Hbody & Hpad).
  assert (In (N_of_ascii b) (map N_of_ascii (urlsafe_b64encode s)))
    as Hin by now apply in_map.
  pose proof (alphabet_printable _ (shape_members _ _ _ _ E Hbody Hpad Hin)) as P.
  unfold printable in P. apply andb_prop in P as [_ P].
  unfold is_ascii. apply N.ltb_lt. apply N.ltb_lt in P. lia.
Qed.

(** The payload [handle_form] builds: the encoded bytes read as text. *)
Lemma handle_form_payload (form : bytes) :
  handle_form form = Ok (map N_of_ascii (urlsafe_b64encode form)).
Proof.
  unfold handle_form.
  now rewrite (utf8_decode_ascii _ (urlsafe_b64encode_ascii form)).
Qed.

(** On such a payload the worker's base64 step gives the uploaded bytes
    back, so that the decode step is the UTF-8 decoding of the upload. *)
Lemma decode_contents_payload (form : bytes) :
  decode_contents (map N_of_ascii (urlsafe_b64encode form)) = utf8.decode form.
Proof.
  unfold decode_contents.
  rewrite (utf8_encode_ascii _ (urlsafe_b64encode_ascii form)). cbn [bind].
  now rewrite urlsafe_b64decode_b64encode.
Qed.

End codec_facts.

(** ** Facts about the [random] module *)

Module random_facts.
Import random.

Local Open Scope Z_scope.

Lemma bit_length_pos (n : Z) : 0 < n -> 0 < bit_length n.
Proof.
  intros Hn. unfold bit_length.
  destruct (Z.eqb_spec n 0) as [->|_]; [lia|].
  pose proof (Z.log2_nonneg (Z.abs n)). lia.
Qed.

Lemma genrand_uint32_spec (tape : list Z) :
  exists r tape',
    genrand_uint32 tape = (r, tape')
    /\ 0 <= r < 2 ^ 32
    /\ (tape = [] -> r = 0 /\ tape' = [])
    /\ (tape <> [] -> S (length tape') = length tape).
Proof.
  destruct tape as [|word tape']; cbn [genrand_uint32].
  - exists 0, []. repeat split; try lia; congruence.
  - exists (word mod 2 ^ 32), tape'.
    pose proof (Z.mod_pos_bound word (2 ^ 32)).
    repeat split; try lia; try congruence.
Qed.

Lemma getrandbits_words_spec (words : nat) :
  forall k tape,
  exists r tape',
    getrandbits_words words k tape = (r, tape')
    /\ 0 <= r
    /\ (tape = [] -> r = 0 /\ tape' = [])
    /\ (length tape' <= length tape)%nat
    /\ (words <> O -> tape <> [] -> (length tape' < length tape)%nat).
Proof.
  induction words as [|words IH]; intros k tape; cbn [getrandbits_words].
  - exists 0, tape. split; [reflexivity|]. split; [lia|].
    split; [intros ->; now split|]. split; [lia|congruence].
  - destruct (genrand_uint32_spec tape) as (r & tape1 & -> & Hr & He & Hn).
    destruct (IH (k - 32) tape1) as (high & tape2 & -> & Hh & He2 & Hl & _).
    eexists _, tape2. split; [reflexivity|].
    assert (0 <= (if k <? 32 then Z.shiftr r (32 - k) else r)) as Hr'.
    { destruct (k <? 32); [apply Z.shiftr_nonneg|]; lia. }
    assert (0 <= Z.shiftl high 32) as Hh' by (apply Z.shiftl_nonneg; lia).
    split; [lia|]. split; [|split].
    + intros E. destruct (He E) as (-> & E1). destruct (He2 E1) as (-> & ->).
      split; [|reflexivity].
      destruct (k <? 32); now rewrite ?Z.shiftr_0_l, ?Z.shiftl_0_l.
    + destruct tape; [destruct (He eq_refl) as (_ & ->); cbn in *; lia|].
      assert (S (length tape1) = length (z :: tape)) by (apply Hn; congruence).
      lia.
    + intros _ Ht. specialize (Hn Ht). lia.
Qed.

(** [getrandbits(k)] for [k > 0] returns a number that is not negative,
    and uses up at least one of the listed words while there are any. *)
Lemma getrandbits_spec (k : Z) (tape : list Z) :
  0 < k ->
  exists r tape',
    getrandbits k tape = Ok (r, tape')
    /\ 0 <= r
    /\ (tape = [] -> r = 0 /\ tape' = [])
    /\ (tape <> [] -> (length tape' < length tape)%nat).
Proof.
  intros Hk. unfold getrandbits.
  destruct (Z.ltb_spec k 0); [lia|].
  destruct (Z.eqb_spec k 0); [lia|].
  destruct (Z.leb_spec k 32).
  - destruct (genrand_uint32_spec tape) as (r & tape1 & -> & Hr & He & Hn).
    eexists _, tape1. split; [reflexivity|].
    split; [apply Z.shiftr_nonneg; lia|]. split.
    + intros E. destruct (He E) as (-> & ->). now rewrite Z.shiftr_0_l.
    + intros Ht. specialize (Hn Ht). lia.
  - destruct (getrandbits_words_spec (Z.to_nat ((k - 1) / 32 + 1)) k tape)
      as (r & tape' & -> & Hr & He & _ & Hl).
    exists r, tape'. split; [reflexivity|]. split; [exact Hr|].
    split; [exact He|]. apply Hl.
    assert (0 <= (k - 1) / 32) by (apply Z.div_pos; lia). lia.
Qed.

Lemma randbelow_loop_returns (n k : Z) (fuel : nat) :
  0 < n -> 0 < k ->
  forall r tape,
    0 <= r -> (length tape < fuel)%nat ->
    exists r', randbelow_loop fuel n k r tape = Ok r' /\ 0 <= r' < n.
Proof.
  intros Hn Hk. induction fuel as [|fuel IH]; intros r tape Hr Hl; [lia|].
  cbn [randbelow_loop]. rewrite Z.geb_leb.
  destruct (Z.leb_spec n r) as [Hge|Hlt]; [|exists r; split; [reflexivity|lia]].
  destruct (getrandbits_spec k tape Hk) as (r' & tape' & -> & Hr' & He & Hlen).
  destruct tape as [|word tape].
  - destruct (He eq_refl) as (-> & ->).
    exists 0. split; [|lia].
    destruct fuel; cbn [randbelow_loop]; rewrite Z.geb_leb;
      destruct (Z.leb_spec n 0); try lia; reflexivity.
  - apply IH; [exact Hr'|].
    assert (length tape' < length (word :: tape))%nat
      by (apply Hlen; congruence).
    lia.
Qed.

(** For [n > 0], [_randbelow(n)] returns, and what it returns is in
    [[0, n)]. *)
Lemma randbelow_returns (n : Z) (tape : list Z) :
  0 < n -> exists r, _randbelow n tape = Ok r /\ 0 <= r < n.
Proof.
  intros Hn. unfold _randbelow.
  pose proof (bit_length_pos n Hn) as Hk.
  destruct (getrandbits_spec (bit_length n) tape Hk)
    as (r & tape' & -> & Hr & _ & _).
  apply randbelow_loop_returns; auto.
Qed.

(** [randint(a, b)] with [a <= b] returns an integer of [[a, b]] and is
    one call on the generator. *)
Lemma randint_returns (a b : Z) (w : world) :
  a <= b ->
  exists n,
    randint a b w
    = (Ok n, mkWorld (random_source w) (S (random_used w)) (slept w))
    /\ a <= n <= b.
Proof.
  intros Hab. unfold randint, randrange. cbv zeta.
  rewrite Z.gtb_ltb. destruct (Z.ltb_spec 0 (b + 1 - a)); [|lia].
  destruct (randbelow_returns (b + 1 - a) (random_source w (random_used w)))
    as (r & -> & Hr); [lia|].
  exists (a + r). split; [reflexivity|lia].
Qed.

(** The three high bits of a 32-bit word. *)
Lemma getrandbits_3 (word : Z) (tape : list Z) :
  getrandbits 3 (word :: tape) = Ok (word mod 2 ^ 32 / 2 ^ 29, tape).
Proof.
  unfold getrandbits. cbn [Z.ltb Z.eqb Z.leb Z.compare genrand_uint32].
  change (32 - 3) with 29. now rewrite Z.shiftr_div_pow2 by lia.
Qed.

(** The draws [randint(5, 10)] rejects are used up one by one, and the
    first word whose high bits are below 6 gives the number. *)
Lemma randbelow_loop_6 (word : Z) (rest rejected : list Z) :
  Forall (fun x => 6 * 2 ^ 29 <= x mod 2 ^ 32) rejected ->
  word mod 2 ^ 32 < 6 * 2 ^ 29 ->
  forall fuel r,
    (length rejected < fuel)%nat -> 6 <= r ->
    randbelow_loop fuel 6 3 r (rejected ++ word :: rest)
    = Ok (word mod 2 ^ 32 / 2 ^ 29).
Proof.
  intros Hrej Hword. induction Hrej as [|x rejected Hx _ IH];
    intros fuel r Hl Hr; (destruct fuel as [|fuel]; [cbn in Hl; lia|]);
    cbn [randbelow_loop app]; rewrite Z.geb_leb;
    (destruct (Z.leb_spec 6 r); [|lia]); rewrite getrandbits_3.
  - assert (word mod 2 ^ 32 / 2 ^ 29 < 6)
      by (apply Z.div_lt_upper_bound; lia).
    destruct fuel; cbn [randbelow_loop]; rewrite Z.geb_leb;
      destruct (Z.leb_spec 6 (word mod 2 ^ 32 / 2 ^ 29)); try lia; reflexivity.
  - apply IH; [cbn in Hl; lia|].
    apply Z.div_le_lower_bound; lia.
Qed.

Lemma randbelow_6 (rejected : list Z) (word : Z) (rest : list Z) :
  Forall (fun x => 6 * 2 ^ 29 <= x mod 2 ^ 32) rejected ->
  word mod 2 ^ 32 < 6 * 2 ^ 29 ->
  _randbelow 6 (rejected ++ word :: rest) = Ok (word mod 2 ^ 32 / 2 ^ 29).
Proof.
  intros Hrej Hword. unfold _randbelow.
  change (bit_length 6) with 3.
  assert (word mod 2 ^ 32 / 2 ^ 29 < 6) as Hlt
    by (apply Z.div_lt_upper_bound; lia).
  destruct Hrej as [|x rejected Hx Hrej]; cbn [app]; rewrite getrandbits_3.
  - cbn [randbelow_loop]. rewrite Z.geb_leb.
    destruct (Z.leb_spec 6 (word mod 2 ^ 32 / 2 ^ 29)); [lia|reflexivity].
  - apply randbelow_loop_6; auto.
    + rewrite length_app. cbn. lia.
    + apply Z.div_le_lower_bound; lia.
Qed.

End random_facts.

(** ** Facts about the task *)

Module task_facts.

(** [randint(5, 10)] returns [drawn w], which is one of 5, ..., 10, and
    is one call on the generator. *)
Lemma randint_drawn w :
  random.randint 5 10 w
  = (Ok (drawn w), mkWorld (random_source w) (S (random_used w)) (slept w))
  /\ (5 <= drawn w <= 10)%Z.
Proof.
  unfold drawn.
  destruct (random_facts.randint_returns 5 10 w) as (n & -> & Hn); [lia|].
  now split.
Qed.

Lemma drawn_bounds w : (5 <= drawn w <= 10)%Z.
Proof. apply randint_drawn. Qed.

(** The duration comes from the first word the generator hands the call
    whose three high bits are below 6. *)
Lemma drawn_accepted w (rejected : list Z) (word : Z) (rest : list Z) :
  random_source w (random_used w) = rejected ++ word :: rest ->
  Forall (fun x => (6 * 2 ^ 29 <= x mod 2 ^ 32)%Z) rejected ->
  (word mod 2 ^ 32 < 6 * 2 ^ 29)%Z ->
  drawn w = (5 + word mod 2 ^ 32 / 2 ^ 29)%Z.
Proof.
  intros Htape Hrej Hword.
  unfold drawn, random.randint, random.randrange. cbv zeta.
  change (10 + 1 - 5)%Z with 6%Z. cbn [Z.gtb Z.compare].
  now rewrite Htape, (random_facts.randbelow_6 _ _ _ Hrej Hword).
Qed.

(** The whole behaviour of [my_task]: the value is fixed by [contents]
    before any effect takes place. *)
Lemma my_task_run (contents : str) (w : world) :
  my_task contents w =
  match my_task_rv contents with
  | Ok rv => (Ok rv, after_sleep w)
  | Raise e => (Raise e, w)
  end.
Proof.
  unfold my_task, bindM, lift.
  destruct (my_task_rv contents); [|reflexivity].
  now rewrite (proj1 (randint_drawn w)).
Qed.

Lemma my_task_fst (contents : str) (w : world) :
  fst (my_task contents w) = my_task_rv contents.
Proof. rewrite my_task_run. now destruct (my_task_rv contents). Qed.

Lemma count_count_occ (s : str) (ch : N) :
  count s ch = Z.of_nat (count_occ N.eq_dec s ch).
Proof.
  unfold count. f_equal.
  induction s as [|c s IH]; [reflexivity|].
  cbn [List.filter count_occ].
  destruct (N.eq_dec c ch) as [->|Hne].
  - rewrite N.eqb_refl. cbn [length]. now rewrite IH.
  - destruct (N.eqb_spec ch c); [congruence|exact IH].
Qed.

Lemma my_task_rv_decoded (contents c : str) :
  decode_contents contents = Ok c -> my_task_rv contents = Ok (statistics c).
Proof.
  intros H. unfold my_task_rv, statistics. rewrite H.
  now rewrite count_count_occ.
Qed.

Lemma my_task_rv_undecodable (contents : str) :
  decode_contents contents = Raise UnicodeDecodeError ->
  my_task_rv contents = Ok (PyStr "failed to decode.").
Proof. intros H. unfold my_task_rv. now rewrite H. Qed.

Lemma my_task_rv_binascii (contents : str) :
  decode_contents contents = Raise binascii_Error ->
  my_task_rv contents = Raise binascii_Error.
Proof. intros H. unfold my_task_rv. now rewrite H. Qed.

End task_facts.

(** ** Facts about the system *)

Module system_facts.
Import task_facts.

Lemma deliver_spec (task : string) (s : system) (contents : str) :
  jobs s !! task = Some contents ->
  exists w,
    deliver task s =
    Some (mkSystem (jobs s) (<[task := my_task_rv contents]> (store s)) w).
Proof.
  intros H. unfold deliver. rewrite H.
  pose proof (my_task_fst contents (env s)) as E.
  destruct (my_task contents (env s)) as [r w]. cbn in E. subst r.
  now exists w.
Qed.

Lemma step_jobs (e : event) (s s' : system) (task : string) (contents : str) :
  step e s = Some s' ->
  jobs s !! task = Some contents -> jobs s' !! task = Some contents.
Proof.
  intros Hstep Hjob.
  assert (forall id c, delay id c s = Some s' ->
                       jobs s' !! task = Some contents) as Hdelay.
  { intros id c. unfold delay.
    destruct (jobs s !! id) eqn:E; [discriminate|].
    intros [= <-]. cbn. rewrite lookup_insert_ne; [exact Hjob|].
    intros ->. congruence. }
  destruct e as [id form|id c|id]; cbn in Hstep.
  - unfold home in Hstep. destruct (handle_form form).
    + eauto.
    + injection Hstep as <-. exact Hjob.
  - eauto.
  - unfold deliver in Hstep. destruct (jobs s !! id); [|discriminate].
    destruct (my_task _ _). injection Hstep as <-. exact Hjob.
Qed.

Lemma step_settled (e : event) (s s' : system) :
  step e s = Some s' -> settled_by_task s -> settled_by_task s'.
Proof.
  intros Hstep Inv task r Hr.
  assert (forall id c, delay id c s = Some s' ->
            exists contents, jobs s' !! task = Some contents
                             /\ r = my_task_rv contents) as Hdelay.
  { intros id c Hd. pose proof Hd as Hd'. unfold delay in Hd.
    destruct (jobs s !! id) eqn:E; [discriminate|].
    injection Hd as <-. cbn in Hr.
    destruct (Inv task r Hr) as (contents & Hc & ->).
    exists contents. split; [|reflexivity].
    apply (step_jobs (Delay id c) s); assumption. }
  destruct e as [id form|id c|id]; cbn in Hstep.
  - unfold home in Hstep. destruct (handle_form form).
    + eauto.
    + injection Hstep as <-. now apply Inv.
  - eauto.
  - destruct (jobs s !! id) as [contents|] eqn:E.
    + destruct (deliver_spec id s contents E) as (w & Hd).
      rewrite Hd in Hstep. injection Hstep as <-. cbn in *.
      destruct (decide (id = task)) as [->|Hne].
      * rewrite lookup_insert_eq in Hr. injection Hr as <-. eauto.
      * rewrite lookup_insert_ne in Hr by assumption. now apply Inv.
    + unfold deliver in Hstep. rewrite E in Hstep. discriminate.
Qed.

Lemma initial_settled (w : world) : settled_by_task (initial w).
Proof. intros task r H. cbn in H. now rewrite lookup_empty in H. Qed.

Lemma run_settled (evs : list event) (s s' : system) :
  run evs s = Some s' -> settled_by_task s -> settled_by_task s'.
Proof.
  revert s. induction evs as [|e evs IH]; intros s; cbn.
  - now intros [= <-].
  - destruct (step e s) as [s1|] eqn:E; [|discriminate].
    intros Hrun Inv. eapply IH; [exact Hrun|]. eapply step_settled; eauto.
Qed.

Lemma reachable_settled (s : system) : reachable s -> settled_by_task s.
Proof.
  intros (w & evs & H). eapply run_settled; [exact H|apply initial_settled].
Qed.



End system_facts.

(** ** Properties of the job life cycle *)

Import codec_facts task_facts system_facts.

(** C1, as stated, fails on binary input: the one-byte upload 0xFF is
    encoded as [_w==], and the worker's decode step on that payload raises
    [UnicodeDecodeError] instead of giving the byte back. *)
Lemma codec_round_trip_binary_counterexample :
  handle_form [byte_ff] = Ok (str_of_string "_w==")
  /\ decode_contents (str_of_string "_w==") = Raise UnicodeDecodeError
  /\ my_task_rv (str_of_string "_w==") = Ok (PyStr "failed to decode.").
Proof. repeat split; vm_compute; reflexivity. Qed.

(** C1 (amended): for every byte sequence [b], [handle_form] builds a
    payload on which the worker's base64 step, [urlsafe_b64decode] of the
    re-encoded payload, returns exactly [b]; the whole decode step of
    [my_task] is then the strict UTF-8 decoding of [b], the text of [b]
    when [b] is well-formed UTF-8 and [UnicodeDecodeError] otherwise. *)
Theorem codec_round_trip (b : bytes) :
  exists payload,
    handle_form b = Ok payload
    /\ (let* raw := utf8.encode payload in base64.urlsafe_b64decode raw) = Ok b
    /\ decode_contents payload = utf8.decode b.
Proof.
  exists (map N_of_ascii (base64.urlsafe_b64encode b)).
  split; [apply handle_form_payload|]. split.
  - rewrite (utf8_encode_ascii _ (urlsafe_b64encode_ascii b)). cbn [bind].
    apply base64_facts.urlsafe_b64decode_b64encode.
  - apply decode_contents_payload.
Qed.

(** C8, as stated, fails whenever the upload's length is not a multiple of
    three: the payload of the one-byte upload [a] is [YQ==], whose pad
    character [=] is outside the URL-safe alphabet. *)
Lemma transport_safe_pad_counterexample :
  handle_form (bytes_of_string "a") = Ok (str_of_string "YQ==")
  /\ forallb urlsafe_alphabet (str_of_string "YQ==") = false.
Proof. split; vm_compute; reflexivity. Qed.

(** C8 (amended): for every byte sequence, the payload [handle_form]
    builds consists of characters of the URL-safe base64 alphabet
    ([A-Z], [a-z], [0-9], [-], [_]) followed by at most two pad characters
    [=]; every character is printable ASCII, so there is no control
    character, no space, and neither [+] nor [/]. *)
Theorem handle_form_transport_safe (form : bytes) :
  exists payload body pad,
    handle_form form = Ok payload
    /\ payload = body ++ pad
    /\ forallb urlsafe_alphabet body = true
    /\ (pad = [] \/ pad = [pad_code] \/ pad = [pad_code; pad_code])
    /\ forallb printable payload = true.
Proof.
  destruct (urlsafe_b64encode_shape form) as (body & pad & E & Hbody & Hpad).
  exists (map N_of_ascii (base64.urlsafe_b64encode form)), body, pad.
  split; [apply handle_form_payload|].
  repeat (split; [assumption|]).
  apply forallb_forall. intros c Hc.
  apply alphabet_printable. eapply shape_members; eauto.
Qed.

(** An upload followed by one delivery: the job is settled with the value
    the task gives on the payload built from the upload. *)
Lemma upload_then_deliver (form : bytes) (task : string) (w : world) :
  exists s payload,
    run [Upload task form; Deliver task] (initial w) = Some s
    /\ store s !! task = Some (my_task_rv payload)
    /\ decode_contents payload = utf8.decode form.
Proof.
  cbn [run step]. unfold home. rewrite handle_form_payload.
  unfold delay. cbn [initial jobs store env]. rewrite lookup_empty.
  set (payload := map N_of_ascii (base64.urlsafe_b64encode form)).
  set (s1 := mkSystem _ _ _).
  assert (jobs s1 !! task = Some payload) as Hjob
    by (subst s1; cbn; apply lookup_insert_eq).
  destruct (deliver_spec task s1 payload Hjob) as (w' & ->).
  eexists. exists payload. split; [reflexivity|]. split.
  - cbn. apply lookup_insert_eq.
  - apply decode_contents_payload.
Qed.

Lemma upload_decodable (form : bytes) (c : str) (task : string) (w : world) :
  utf8.decode form = Ok c ->
  exists s,
    run [Upload task form; Deliver task] (initial w) = Some s
    /\ status_of s task = SUCCESS
    /\ result_of s task = statistics c.
Proof.
  intros H.
  destruct (upload_then_deliver form task w) as (s & payload & Hrun & Hst & Hdec).
  exists s. split; [exact Hrun|].
  rewrite H in Hdec. apply my_task_rv_decoded in Hdec.
  unfold status_of, result_of, AsyncResult.status, AsyncResult.result.
  cbn. rewrite Hst, Hdec. split; reflexivity.
Qed.

(** C3: whenever the decode step of [my_task] succeeds with text [c], the
    task returns the mapping with [lines] the number of occurrences of the
    newline character in [c] and [characters] the length of [c]; an upload
    whose bytes decode to [c] is settled as [SUCCESS] with that mapping;
    the upload [a\nb\nc] is settled as [SUCCESS] with
    [{lines: 2, characters: 5}] and the empty upload as [SUCCESS] with
    [{lines: 0, characters: 0}]. *)
Theorem my_task_statistics :
  (forall (contents c : str) (w : world),
      decode_contents contents = Ok c ->
      fst (my_task contents w) = Ok (statistics c))
  /\ (forall (form : bytes) (c : str) (task : string) (w : world),
      utf8.decode form = Ok c ->
      exists s,
        run [Upload task form; Deliver task] (initial w) = Some s
        /\ status_of s task = SUCCESS
        /\ result_of s task = statistics c)
  /\ (forall (task : string) (w : world),
      exists s,
        run [Upload task (bytes_of_string "a
b
c"); Deliver task] (initial w) = Some s
        /\ status_of s task = SUCCESS
        /\ result_of s task = PyDict [("lines", 2%Z); ("characters", 5%Z)])
  /\ (forall (task : string) (w : world),
      exists s,
        run [Upload task []; Deliver task] (initial w) = Some s
        /\ status_of s task = SUCCESS
        /\ result_of s task = PyDict [("lines", 0%Z); ("characters", 0%Z)]).
Proof.
  split; [|split; [|split]].
  - intros contents c w H. rewrite my_task_fst. now apply my_task_rv_decoded.
  - apply upload_decodable.
  - intros task w.
    apply (upload_decodable _ (str_of_string "a
b
c")). reflexivity.
  - intros task w. apply (upload_decodable _ []). reflexivity.
Qed.

Lemma my_task_statistics_witness :
  decode_contents (str_of_string "YQpiCmM=") = Ok (str_of_string "a
b
c")
  /\ fst (my_task (str_of_string "YQpiCmM=") (quiet 3))
     = Ok (PyDict [("lines", 2%Z); ("characters", 5%Z)]).
Proof.
  split; [vm_compute; reflexivity|].
  apply (proj1 my_task_statistics (str_of_string "YQpiCmM=")
               (str_of_string "a
b
c") (quiet 3)).
  vm_compute. reflexivity.
Defined.

(** C9: the value [my_task] returns, or the exception that leaves it, is
    a function of [contents] alone: two executions on the same [contents]
    agree on it whatever the random generator answers and whatever has
    been slept before. *)
Theorem my_task_result_deterministic (contents : str) (w1 w2 : world) :
  fst (my_task contents w1) = fst (my_task contents w2)
  /\ fst (my_task contents w1) = my_task_rv contents.
Proof. now rewrite !my_task_fst. Qed.

(** C10: [my_task] catches [UnicodeDecodeError] only.  A payload with
    wrong padding ([YQ=]), one with a single data character ([a]) and one
    in which a foreign character leaves three data characters ([a*bc])
    make [urlsafe_b64decode] raise [binascii.Error]; the error leaves
    [my_task] before the sleep, and no in-band value is returned.  The same
    holds for every payload on which the base64 step raises. *)
Theorem binascii_error_propagates :
  (forall (contents : str) (raw : bytes) (w : world),
      utf8.encode contents = Ok raw ->
      base64.urlsafe_b64decode raw = Raise binascii_Error ->
      my_task contents w = (Raise binascii_Error, w))
  /\ (forall w, my_task (str_of_string "YQ=") w = (Raise binascii_Error, w))
  /\ (forall w, my_task (str_of_string "a") w = (Raise binascii_Error, w))
  /\ (forall w, my_task (str_of_string "a*bc") w = (Raise binascii_Error, w)).
Proof.
  assert (forall contents w,
             decode_contents contents = Raise binascii_Error ->
             my_task contents w = (Raise binascii_Error, w)) as H.
  { intros contents w E. rewrite my_task_run.
    now rewrite (my_task_rv_binascii _ E). }
  split; [|repeat split; intros w; apply H; vm_compute; reflexivity].
  intros contents raw w E1 E2. apply H. unfold decode_contents.
  rewrite E1. cbn [bind]. now rewrite E2.
Qed.

Lemma binascii_error_propagates_witness :
  utf8.encode (str_of_string "YQ=") = Ok (bytes_of_string "YQ=")
  /\ base64.urlsafe_b64decode (bytes_of_string "YQ=") = Raise binascii_Error
  /\ my_task (str_of_string "YQ=") (quiet 0) = (Raise binascii_Error, quiet 0).
Proof.
  split; [reflexivity|]. split; [reflexivity|].
  apply (proj1 binascii_error_propagates _ (bytes_of_string "YQ="));
    reflexivity.
Defined.

(** C7, as stated, fails on the third path through [my_task]: on the
    payload [a] the base64 step raises, the function is left before
    [time.sleep] is reached, and nothing is slept. *)
Lemma latency_no_sleep_counterexample :
  my_task (str_of_string "a") (quiet 0) = (Raise binascii_Error, quiet 0)
  /\ slept (snd (my_task (str_of_string "a") (quiet 0))) = [].
Proof. split; vm_compute; reflexivity. Qed.

(** C7 (amended): every execution of [my_task] that gets past the base64
    step, on the successful-decode path and on the [UnicodeDecodeError]
    path alike, sleeps exactly once, for the number of seconds that
    [randint(5, 10)] returns in its world, whatever the payload: an
    integer between 5 and 10 inclusive, drawn uniformly.  Uniformly:
    [randint] reads 32-bit words of the generator until the three high
    bits of one are below 6; the words it rejects do not bear on the
    result, and of the [6 * 2^29] values the accepted word can have, each
    of the six durations takes exactly [2^29]: the duration is [v] for the
    words from [(v - 5) * 2^29] up to [(v - 4) * 2^29 - 1]. *)
Theorem my_task_latency (contents : str) (w : world) :
  (exists c, decode_contents contents = Ok c)
  \/ decode_contents contents = Raise UnicodeDecodeError ->
  exists rv,
    my_task contents w =
      (Ok rv,
       mkWorld (random_source w) (S (random_used w)) (slept w ++ [drawn w]))
    /\ fst (random.randint 5 10 w) = Ok (drawn w)
    /\ (5 <= drawn w <= 10)%Z
    /\ forall rejected word rest,
         random_source w (random_used w) = rejected ++ word :: rest ->
         Forall (fun x => (6 * 2 ^ 29 <= x mod 2 ^ 32)%Z) rejected ->
         (0 <= word < 6 * 2 ^ 29)%Z ->
         forall v,
           drawn w = v
           <-> ((v - 5) * 2 ^ 29 <= word < (v - 4) * 2 ^ 29)%Z.
Proof.
  intros H.
  assert (exists rv, my_task_rv contents = Ok rv) as (rv & Hrv).
  { destruct H as [(c & E)|E].
    - eexists. apply (my_task_rv_decoded _ _ E).
    - eexists. apply (my_task_rv_undecodable _ E). }
  exists rv. rewrite my_task_run, Hrv.
  split; [reflexivity|].
  split; [now rewrite (proj1 (randint_drawn w))|].
  split; [apply drawn_bounds|].
  intros rejected word rest Htape Hrej Hword v.
  rewrite (drawn_accepted w rejected word rest Htape Hrej)
    by (rewrite Z.mod_small; lia).
  rewrite Z.mod_small by lia.
  pose proof (Z.div_mod word (2 ^ 29) ltac:(lia)) as Hdiv.
  pose proof (Z.mod_pos_bound word (2 ^ 29) ltac:(lia)) as Hmod.
  change (2 ^ 29)%Z with 536870912%Z in *. lia.
Qed.

Lemma my_task_latency_witness :
  let w := mkWorld (fun _ => [7 * 2 ^ 29 + 123; 4 * 2 ^ 29 + 5]%Z) 0 [] in
  exists rv,
    my_task (str_of_string "_w==") w
    = (Ok rv, mkWorld (random_source w) 1 [drawn w])
    /\ drawn w = 9%Z.
Proof.
  intros w.
  destruct (my_task_latency (str_of_string "_w==") w) as (rv & H1 & _ & _ & H2).
  { right. vm_compute. reflexivity. }
  exists rv. split; [exact H1|].
  apply (H2 [7 * 2 ^ 29 + 123]%Z (4 * 2 ^ 29 + 5)%Z []).
  - reflexivity.
  - constructor; [vm_compute; discriminate|constructor].
  - split; vm_compute; [discriminate|reflexivity].
  - split; vm_compute; [discriminate|reflexivity].
Defined.

(** Any job the broker holds can be delivered, whatever earlier jobs did,
    and the delivery settles it. *)
Lemma deliver_settles (s : system) (task : string) (contents : str) :
  jobs s !! task = Some contents ->
  exists s',
    deliver task s = Some s'
    /\ store s' !! task = Some (my_task_rv contents)
    /\ terminal (status_of s' task) = true
    /\ jobs s' = jobs s.
Proof.
  intros H. destruct (deliver_spec task s contents H) as (w & ->).
  eexists. split; [reflexivity|]. cbn.
  unfold status_of, AsyncResult.status. cbn. rewrite lookup_insert_eq.
  repeat split. now destruct (my_task_rv contents).
Qed.

(** C2, as stated, fails on the path the code handles: the payload [_w==]
    cannot be decoded as UTF-8, the task returns its message as an ordinary
    value, and the job is settled as [SUCCESS], not [FAILURE]. *)
Lemma decode_failure_state_counterexample :
  decode_contents (str_of_string "_w==") = Raise UnicodeDecodeError
  /\ match run [Delay job (str_of_string "_w=="); Deliver job]
               (initial (quiet 0)) with
     | Some s => status_of s job = SUCCESS
                 /\ status_of s job <> FAILURE
                 /\ result_of s job = PyStr "failed to decode."
     | None => False
     end.
Proof. split; [vm_compute; reflexivity|]. vm_compute. repeat split. discriminate. Qed.

(** C2 (amended): for every job whose payload makes the decode step raise
    [UnicodeDecodeError], [my_task] catches the error and returns the
    non-empty message [failed to decode.] as its ordinary return value; the
    delivery settles the job as [SUCCESS] carrying that message, and the
    worker keeps serving: every job the broker holds can still be delivered
    and is settled by its delivery. *)
Theorem decode_failure_in_band (s : system) (task : string) (contents : str) :
  jobs s !! task = Some contents ->
  decode_contents contents = Raise UnicodeDecodeError ->
  fst (my_task contents (env s)) = Ok (PyStr "failed to decode.")
  /\ exists s',
      deliver task s = Some s'
      /\ status_of s' task = SUCCESS
      /\ result_of s' task = PyStr "failed to decode."
      /\ forall task' contents',
          jobs s !! task' = Some contents' ->
          exists s'', deliver task' s' = Some s''
                      /\ terminal (status_of s'' task') = true.
Proof.
  intros Hjob Hdec.
  pose proof (my_task_rv_undecodable _ Hdec) as Hrv.
  split; [now rewrite my_task_fst|].
  destruct (deliver_settles s task contents Hjob) as (s' & Hd & Hst & _ & Hjobs).
  exists s'. split; [exact Hd|].
  unfold status_of, result_of, AsyncResult.status, AsyncResult.result.
  cbn. rewrite Hst, Hrv. repeat split.
  intros task' contents' H'. rewrite <- Hjobs in H'.
  destruct (deliver_settles s' task' contents' H') as (s'' & ? & _ & ? & _).
  eauto.
Qed.

Lemma decode_failure_in_band_witness :
  let s := mkSystem (<[job := str_of_string "_w=="]> ∅) ∅ (quiet 0) in
  fst (my_task (str_of_string "_w==") (env s)) = Ok (PyStr "failed to decode.")
  /\ exists s',
      deliver job s = Some s'
      /\ status_of s' job = SUCCESS
      /\ result_of s' job = PyStr "failed to decode."
      /\ forall task' contents',
          jobs s !! task' = Some contents' ->
          exists s'', deliver task' s' = Some s''
                      /\ terminal (status_of s'' task') = true.
Proof.
  apply (decode_failure_in_band
           (mkSystem (<[job := str_of_string "_w=="]> ∅) ∅ (quiet 0))
           job (str_of_string "_w==")).
  - apply lookup_insert_eq.
  - vm_compute. reflexivity.
Defined.

(** C4, as stated, fails on a job in the terminal state [FAILURE]: the
    payload [a] makes the task raise, the job is settled as [FAILURE], and
    the results route still answers with the warning and the redirect. *)
Lemma results_failure_counterexample :
  match run [Delay job (str_of_string "a"); Deliver job] (initial (quiet 0)) with
  | Some s => status_of s job = FAILURE
              /\ terminal (status_of s job) = true
              /\ snd (results (store s) job) = redirect url_for_home
              /\ map category (fst (results (store s) job)) = ["warning"]
  | None => False
  end.
Proof. vm_compute. repeat split. Qed.

(** C4 (amended): the results route returns the job's outcome, rendering
    [results.html] with the handle whose result is the value the task
    returned, if and only if the job's state is [SUCCESS]; in every other
    state, [PENDING] and [FAILURE] alike, it flashes one warning that the
    task is not yet complete and redirects to the home page. *)
Theorem results_requires_success
    (celery : gmap string (result pyvalue)) (task : string) :
  let handle := AsyncResult.make task celery in
  match AsyncResult.status handle with
  | SUCCESS =>
      results celery task = ([], render_template "results.html" handle)
      /\ celery !! task = Some (Ok (AsyncResult.result handle))
  | PENDING | FAILURE =>
      snd (results celery task) = redirect url_for_home
      /\ map category (fst (results celery task)) = ["warning"]
  end.
Proof.
  unfold results, AsyncResult.successful, AsyncResult.status,
    AsyncResult.result.
  cbn. destruct (celery !! task) as [[retval|e]|]; cbn; auto.
Qed.

(** What the check route does in each state of the job: it answers a
    pending job with a null result and a successful one without the
    [result] key; for a failed job the result is the exception instance,
    which [jsonify] cannot serialise. *)
Lemma check_cases (celery : gmap string (result pyvalue)) (task : string) :
  check celery task =
  match celery !! task with
  | None =>
      Ok (json_response [("task_id", PyStr task); ("status", PyStr "PENDING");
                         ("result", PyNone)])
  | Some (Ok _) =>
      Ok (json_response [("task_id", PyStr task); ("status", PyStr "SUCCESS")])
  | Some (Raise _) => Raise TypeError
  end.
Proof.
  unfold check, AsyncResult.successful, AsyncResult.status,
    AsyncResult.result.
  cbn. destruct (celery !! task) as [[retval|e]|]; reflexivity.
Qed.

(** C5 (defect in the code): the check route has no answer for a failed
    job.  The job queued with the payload [a] ends in the state [FAILURE]
    with the [binascii.Error] instance as its result; [check] hands that
    instance to [jsonify] as [result], the JSON encoder raises [TypeError],
    and no answer with identifier, state and result is sent.  In the two
    other states the route answers as the claim says: with a null result
    for a pending job, and without the [result] key for a successful
    one. *)
Theorem check_failure_unserializable :
  match run [Delay job (str_of_string "a"); Deliver job] (initial (quiet 0)) with
  | Some s => status_of s job = FAILURE
              /\ result_of s job = PyExc binascii_Error
              /\ check (store s) job = Raise TypeError
  | None => False
  end
  /\ forall (celery : gmap string (result pyvalue)) (task : string),
       match AsyncResult.status (AsyncResult.make task celery) with
       | PENDING =>
           check celery task
           = Ok (json_response [("task_id", PyStr task);
                                ("status", PyStr "PENDING");
                                ("result", PyNone)])
       | SUCCESS =>
           check celery task
           = Ok (json_response [("task_id", PyStr task);
                                ("status", PyStr "SUCCESS")])
       | FAILURE => check celery task = Raise TypeError
       end.
Proof.
  split; [vm_compute; repeat split|].
  intros celery task. rewrite check_cases.
  unfold AsyncResult.status. cbn.
  destruct (celery !! task) as [[retval|e]|]; reflexivity.
Qed.




(** ** Further properties: the payload [handle_form] builds *)

Module payload_facts.
Import base64 base64_facts.

Definition payload_of (form : bytes) : str :=
  map N_of_ascii (urlsafe_b64encode form).

Lemma payload_nil : payload_of [] = [].
Proof. reflexivity. Qed.

Lemma payload_one x :
  payload_of [x] =
  [N_of_ascii (wire (s1 x)); N_of_ascii (wire (s2_tail x)); pad_code; pad_code].
Proof. reflexivity. Qed.

Lemma payload_two x y :
  payload_of [x; y] =
  [N_of_ascii (wire (s1 x)); N_of_ascii (wire (s2 x y));
   N_of_ascii (wire (s3_tail y)); pad_code].
Proof. reflexivity. Qed.

Lemma payload_three x y z rest :
  payload_of (x :: y :: z :: rest) =
  N_of_ascii (wire (s1 x)) :: N_of_ascii (wire (s2 x y))
  :: N_of_ascii (wire (s3 y z)) :: N_of_ascii (wire (s4 z)) :: payload_of rest.
Proof. reflexivity. Qed.

Lemma wire_not_pad v : v < 64 -> N_of_ascii (wire v) <> pad_code.
Proof.
  intros Hv E. pose proof (wire_alphabet v Hv) as H. rewrite E in H.
  discriminate.
Qed.

Lemma count_pad_wire v l :
  v < 64 ->
  count_occ N.eq_dec (N_of_ascii (wire v) :: l) pad_code
  = count_occ N.eq_dec l pad_code.
Proof. intros Hv. apply count_occ_cons_neq, wire_not_pad, Hv. Qed.

Lemma payload_length (form : bytes) :
  length (payload_of form) = (4 * ((length form + 2) / 3))%nat.
Proof.
  induction form as [|x|x y|x y z rest IH] using bytes_ind3.
  - reflexivity.
  - reflexivity.
  - reflexivity.
  - rewrite payload_three. cbn [length]. rewrite IH.
    replace (S (S (S (length rest))) + 2)%nat
      with ((length rest + 2) + 1 * 3)%nat by lia.
    rewrite Nat.div_add by lia. lia.
Qed.

Lemma payload_pads (form : bytes) :
  count_occ N.eq_dec (payload_of form) pad_code
  = ((3 - length form mod 3) mod 3)%nat.
Proof.
  induction form as [|x|x y|x y z rest IH] using bytes_ind3.
  - reflexivity.
  - destruct (sextet_bounds x x) as (B1 & _ & B2 & _).
    rewrite payload_one, !count_pad_wire by assumption. reflexivity.
  - destruct (sextet_bounds x y) as (B1 & B2 & _).
    destruct (sextet_bounds y y) as (_ & _ & _ & _ & B3 & _).
    rewrite payload_two, !count_pad_wire by assumption. reflexivity.
  - destruct (sextet_bounds x y) as (B1 & B2 & _).
    destruct (sextet_bounds y z) as (_ & _ & _ & B3 & _).
    destruct (sextet_bounds z z) as (_ & _ & _ & _ & _ & B4).
    rewrite payload_three, !count_pad_wire, IH by assumption.
    cbn [length].
    replace (S (S (S (length rest)))) with (length rest + 1 * 3)%nat by lia.
    now rewrite Nat.Div0.mod_add.
Qed.

End payload_facts.

Import payload_facts.

(** X1: [handle_form] never raises, and the payload it returns has four
    characters for every three bytes of the upload, rounded up, of which
    the pad characters [=] are none, two or one as the upload's length is
    0, 1 or 2 modulo 3. *)
Theorem handle_form_length (form : bytes) :
  exists payload,
    handle_form form = Ok payload
    /\ length payload = (4 * ((length form + 2) / 3))%nat
    /\ count_occ N.eq_dec payload pad_code
       = ((3 - length form mod 3) mod 3)%nat.
Proof.
  exists (payload_of form). split; [apply handle_form_payload|].
  split; [apply payload_length|apply payload_pads].
Qed.

(** X2: [handle_form] is injective: two uploads with the same payload are
    the same byte sequence. *)
Theorem handle_form_injective (a b : bytes) :
  handle_form a = handle_form b -> a = b.
Proof.
  rewrite !handle_form_payload. intros [= E].
  pose proof (utf8_encode_ascii _ (urlsafe_b64encode_ascii a)) as Ha.
  pose proof (utf8_encode_ascii _ (urlsafe_b64encode_ascii b)) as Hb.
  rewrite E, Hb in Ha. injection Ha as Hab.
  pose proof (base64_facts.urlsafe_b64decode_b64encode a) as Da.
  rewrite <- Hab, base64_facts.urlsafe_b64decode_b64encode in Da.
  now injection Da.
Qed.

Lemma handle_form_injective_witness :
  bytes_of_string "a,b" = bytes_of_string "a,b".
Proof.
  apply (handle_form_injective (bytes_of_string "a,b") (bytes_of_string "a,b")).
  reflexivity.
Defined.

(** ** Further properties: which exceptions the codecs can raise *)

Module raise_facts.

Lemma emit_utf8_raise ch r e :
  utf8.emit ch r = Raise e -> r = Raise e.
Proof. destruct r; cbn; congruence. Qed.

Lemma utf8_decode_raise_bounded (n : nat) :
  forall (bs : bytes) e,
    (length bs <= n)%nat -> utf8.decode bs = Raise e -> e = UnicodeDecodeError.
Proof.
  induction n as [|n IH]; intros bs e Hlen H.
  - destruct bs; [discriminate|cbn in Hlen; lia].
  - destruct bs as [|b0 r0]; [discriminate|].
    cbn [utf8.decode] in H. cbn [length] in Hlen.
    destruct (N_of_ascii b0 <? 128).
    { apply emit_utf8_raise in H. apply (IH r0); [lia|exact H]. }
    destruct (N_of_ascii b0 <? 194); [congruence|].
    destruct (N_of_ascii b0 <? 224).
    { destruct r0 as [|b1 r1]; [congruence|].
      destruct (utf8.is_cont (N_of_ascii b1)); [|congruence].
      apply emit_utf8_raise in H. apply (IH r1); [cbn in Hlen; lia|exact H]. }
    destruct (N_of_ascii b0 <? 240).
    { destruct r0 as [|b1 [|b2 r2]]; try congruence.
      match type of H with (if ?c then _ else _) = _ => destruct c end;
        [|congruence].
      apply emit_utf8_raise in H. apply (IH r2); [cbn in Hlen; lia|exact H]. }
    destruct (N_of_ascii b0 <? 245); [|congruence].
    destruct r0 as [|b1 [|b2 [|b3 r3]]]; try congruence.
    match type of H with (if ?c then _ else _) = _ => destruct c end;
      [|congruence].
    apply emit_utf8_raise in H. apply (IH r3); [cbn in Hlen; lia|exact H].
Qed.

Lemma utf8_decode_raise (bs : bytes) e :
  utf8.decode bs = Raise e -> e = UnicodeDecodeError.
Proof. apply (utf8_decode_raise_bounded (length bs)). lia. Qed.

Lemma utf8_encode_char_raise ch e :
  utf8.encode_char ch = Raise e -> e = UnicodeEncodeError.
Proof.
  unfold utf8.encode_char.
  repeat match goal with
         | |- context [if ?b then _ else _] => destruct b
         end; congruence.
Qed.

Lemma utf8_encode_raise (s : str) e :
  utf8.encode s = Raise e -> e = UnicodeEncodeError.
Proof.
  induction s as [|ch s IH]; [discriminate|].
  cbn [utf8.encode]. destruct (utf8.encode_char ch) eqn:E; cbn [bind].
  - destruct (utf8.encode s); cbn [bind]; [discriminate|].
    intros [= <-]. now apply IH.
  - intros [= <-]. now apply utf8_encode_char_raise in E.
Qed.

Lemma emit_b64_raise b r e :
  base64.emit b r = Raise e -> r = Raise e.
Proof. destruct r; cbn; congruence. Qed.

Lemma a2b_loop_raise (s : bytes) :
  forall quad_pos leftchar pads e,
    base64.a2b_loop s quad_pos leftchar pads = Raise e -> e = binascii_Error.
Proof.
  induction s as [|ch s IH]; intros quad_pos leftchar pads e.
  - cbn. destruct quad_pos; congruence.
  - cbn [base64.a2b_loop].
    destruct (Ascii.eqb ch base64.BASE64_PAD).
    { destruct (2 <=? quad_pos)%nat; [|apply IH].
      destruct (4 <=? quad_pos + S pads)%nat; [discriminate|apply IH]. }
    destruct (base64.table_a2b_base64 ch) as [v|]; [|apply IH].
    destruct quad_pos as [|[|[|q]]]; [apply IH| | |];
      intros H%emit_b64_raise; eapply IH; exact H.
Qed.

Lemma decode_contents_raise (contents : str) e :
  decode_contents contents = Raise e ->
  (e = UnicodeEncodeError /\ utf8.encode contents = Raise UnicodeEncodeError)
  \/ (e = binascii_Error /\ exists raw, utf8.encode contents = Ok raw)
  \/ (e = UnicodeDecodeError /\ exists raw, utf8.encode contents = Ok raw).
Proof.
  unfold decode_contents.
  destruct (utf8.encode contents) as [raw|e1] eqn:E1; cbn [bind].
  - destruct (base64.urlsafe_b64decode raw) as [b|e2] eqn:E2; cbn [bind].
    + intros ->%utf8_decode_raise. right. right. eauto.
    + intros [= <-]. apply a2b_loop_raise in E2. subst. right. left. eauto.
  - intros [= <-]. pose proof (utf8_encode_raise _ _ E1). subst. now left.
Qed.

End raise_facts.

Import raise_facts.

(** ** Further properties: uploads through the form *)

Lemma my_task_rv_payload (form : bytes) :
  my_task_rv (payload_of form) =
  match utf8.decode form with
  | Ok c => Ok (statistics c)
  | Raise _ => Ok (PyStr "failed to decode.")
  end.
Proof.
  pose proof (decode_contents_payload form) as H. fold (payload_of form) in H.
  destruct (utf8.decode form) as [c|e] eqn:E.
  - now apply my_task_rv_decoded.
  - pose proof (utf8_decode_raise _ _ E). subst.
    now apply my_task_rv_undecodable.
Qed.

(** X3: on the payload [handle_form] builds from an upload, [my_task]
    never raises: it returns the statistics of the text when the upload is
    well-formed UTF-8, and the message [failed to decode.] otherwise, in
    both cases after one sleep. *)
Theorem my_task_on_upload (form : bytes) (w : world) :
  exists payload,
    handle_form form = Ok payload
    /\ my_task payload w =
       (match utf8.decode form with
        | Ok c => Ok (statistics c)
        | Raise _ => Ok (PyStr "failed to decode.")
        end, after_sleep w).
Proof.
  exists (payload_of form). split; [apply handle_form_payload|].
  rewrite my_task_run, my_task_rv_payload.
  now destruct (utf8.decode form).
Qed.

(** The events of the form route and of the worker. *)
Definition from_form (e : event) : bool :=
  match e with
  | Upload _ _ | Deliver _ => true
  | Delay _ _ => false
  end.

Definition jobs_from_forms (s : system) : Prop :=
  forall task contents,
    jobs s !! task = Some contents -> exists form, contents = payload_of form.

Lemma step_jobs_from_forms (e : event) (s s' : system) :
  from_form e = true ->
  step e s = Some s' -> jobs_from_forms s -> jobs_from_forms s'.
Proof.
  intros He Hstep Inv task contents Hjob.
  destruct e as [id form|id c|id]; [| discriminate |]; cbn in Hstep.
  - unfold home in Hstep. rewrite handle_form_payload in Hstep.
    unfold delay in Hstep. destruct (jobs s !! id); [discriminate|].
    injection Hstep as <-. cbn in Hjob.
    destruct (decide (id = task)) as [->|Hne].
    + rewrite lookup_insert_eq in Hjob. injection Hjob as <-. now exists form.
    + rewrite lookup_insert_ne in Hjob by assumption. eauto.
  - unfold deliver in Hstep. destruct (jobs s !! id); [|discriminate].
    destruct (my_task _ _). injection Hstep as <-. eauto.
Qed.

Lemma run_jobs_from_forms (evs : list event) (s s' : system) :
  forallb from_form evs = true ->
  run evs s = Some s' -> jobs_from_forms s -> jobs_from_forms s'.
Proof.
  revert s. induction evs as [|e evs IH]; intros s; cbn.
  - now intros _ [= <-].
  - intros [He Hevs]%andb_prop.
    destruct (step e s) as [s1|] eqn:E; [|discriminate].
    intros Hrun Inv. eapply IH; eauto using step_jobs_from_forms.
Qed.

(** X4: in a system driven only by uploads through the form and by
    deliveries, no job is ever in the state [FAILURE]: a settled job is in
    the state [SUCCESS], and its result is either a statistics mapping or
    the message [failed to decode.]. *)
Theorem uploads_never_fail
    (evs : list event) (w : world) (s : system) (task : string) :
  forallb from_form evs = true ->
  run evs (initial w) = Some s ->
  status_of s task <> FAILURE
  /\ (status_of s task = SUCCESS ->
      (exists c, result_of s task = statistics c)
      \/ result_of s task = PyStr "failed to decode.").
Proof.
  intros Hevs Hrun.
  assert (jobs_from_forms s) as Hforms.
  { eapply run_jobs_from_forms; eauto.
    intros t c H. cbn in H. now rewrite lookup_empty in H. }
  assert (settled_by_task s) as Hset
    by (apply reachable_settled; now exists w, evs).
  unfold status_of, result_of, AsyncResult.status, AsyncResult.result. cbn.
  destruct (store s !! task) as [r|] eqn:E; [|split; congruence].
  destruct (Hset task r E) as (contents & Hjob & ->).
  destruct (Hforms task contents Hjob) as (form & ->).
  rewrite my_task_rv_payload.
  destruct (utf8.decode form) as [c|e]; split; try congruence; eauto.
Qed.

Lemma uploads_never_fail_witness :
  exists s,
    run [Upload job [byte_ff]; Deliver job] (initial (quiet 1)) = Some s
    /\ status_of s job <> FAILURE
    /\ (status_of s job = SUCCESS ->
        (exists c, result_of s job = statistics c)
        \/ result_of s job = PyStr "failed to decode.").
Proof.
  assert (exists s, run [Upload job [byte_ff]; Deliver job]
                        (initial (quiet 1)) = Some s)
    as (s & Hrun) by (vm_compute; eauto).
  exists s. split; [exact Hrun|].
  apply (uploads_never_fail [Upload job [byte_ff]; Deliver job] (quiet 1) s job).
  - reflexivity.
  - exact Hrun.
Defined.

(** ** Further properties: the statistics *)

Lemma count_occ_N_of_ascii (form : bytes) (b : byte) :
  count_occ N.eq_dec (map N_of_ascii form) (N_of_ascii b)
  = count_occ ascii_dec form b.
Proof.
  induction form as [|x form IH]; [reflexivity|]. cbn [map].
  destruct (ascii_dec x b) as [->|Hne].
  - rewrite !count_occ_cons_eq by reflexivity. now rewrite IH.
  - rewrite !count_occ_cons_neq; [exact IH|exact Hne|].
    intros E. apply Hne.
    now rewrite <- (ascii_N_embedding x), <- (ascii_N_embedding b), E.
Qed.

Definition line_feed : byte := ascii_of_N 10.

(** X5: for an upload made of ASCII bytes only, the task returns
    [characters] equal to the number of bytes uploaded and [lines] equal to
    the number of line-feed bytes among them; such an upload never gives
    [failed to decode.]. *)
Theorem my_task_ascii_upload (form : bytes) (w : world) :
  forallb is_ascii form = true ->
  exists payload,
    handle_form form = Ok payload
    /\ fst (my_task payload w) =
       Ok (PyDict [("lines", Z.of_nat (count_occ ascii_dec form line_feed));
                   ("characters", Z.of_nat (length form))]).
Proof.
  intros H. exists (payload_of form). split; [apply handle_form_payload|].
  rewrite my_task_fst, my_task_rv_payload, (utf8_decode_ascii _ H).
  unfold statistics. rewrite length_map.
  change newline with (N_of_ascii line_feed).
  now rewrite count_occ_N_of_ascii.
Qed.

Lemma my_task_ascii_upload_witness :
  exists payload,
    handle_form (bytes_of_string "x = 1
y = 2
") = Ok payload
    /\ fst (my_task payload (quiet 2)) =
       Ok (PyDict [("lines", 2%Z); ("characters", 12%Z)]).
Proof.
  apply (my_task_ascii_upload (bytes_of_string "x = 1
y = 2
") (quiet 2)).
  reflexivity.
Defined.

Lemma my_task_rv_dict (contents : str) items :
  my_task_rv contents = Ok (PyDict items) ->
  exists c, decode_contents contents = Ok c
            /\ items = [("lines", count c newline); ("characters", len c)].
Proof.
  unfold my_task_rv. destruct (decode_contents contents) as [c|[]];
    try discriminate.
  intros [= <-]. eauto.
Qed.

(** X6: whenever [my_task] returns a mapping, the mapping has exactly the
    two keys [lines] and [characters], in that order, and
    [0 <= lines <= characters]. *)
Theorem my_task_lines_le_characters
    (contents : str) (w : world) (items : list (string * Z)) :
  fst (my_task contents w) = Ok (PyDict items) ->
  exists lines characters,
    items = [("lines", lines); ("characters", characters)]
    /\ (0 <= lines <= characters)%Z.
Proof.
  rewrite my_task_fst. intros (c & _ & ->)%my_task_rv_dict.
  exists (count c newline), (len c). split; [reflexivity|].
  unfold count, len.
  pose proof (filter_length_le (N.eqb newline) c). lia.
Qed.

Lemma my_task_lines_le_characters_witness :
  exists lines characters,
    [("lines", 1%Z); ("characters", 2%Z)]
    = [("lines", lines); ("characters", characters)]
    /\ (0 <= lines <= characters)%Z.
Proof.
  apply (my_task_lines_le_characters (str_of_string "YQo=") (quiet 0)).
  vm_compute. reflexivity.
Defined.

(** ** Further properties: payloads that cannot be encoded *)

(** The code points [str.encode('utf-8')] accepts: everything below
    0x110000 except the surrogates. *)
Definition encodable (c : N) : bool :=
  (c <? 0xD800) || ((0xDFFF <? c) && (c <? 0x110000)).

Lemma encode_char_encodable (c : N) :
  encodable c = true <-> exists b, utf8.encode_char c = Ok b.
Proof.
  unfold encodable, utf8.encode_char.
  destruct (N.ltb_spec c 0x80), (N.ltb_spec c 0x800), (N.ltb_spec c 0xD800),
    (N.ltb_spec 0xDFFF c), (N.ltb_spec c 0x10000), (N.ltb_spec c 0x110000),
    (N.leb_spec 0xD800 c), (N.leb_spec c 0xDFFF);
    cbn; try lia; split; intros E; eauto; try discriminate;
    destruct E as (b & E); discriminate.
Qed.

Lemma encode_encodable (s : str) :
  forallb encodable s = true <-> exists b, utf8.encode s = Ok b.
Proof.
  induction s as [|c s IH]; cbn [forallb utf8.encode].
  - split; eauto.
  - rewrite andb_true_iff, IH, encode_char_encodable. split.
    + intros ((b & ->) & (bs & ->)). cbn. eauto.
    + destruct (utf8.encode_char c); cbn [bind]; [|intros (? & ?); discriminate].
      destruct (utf8.encode s); cbn [bind]; [eauto|intros (? & ?); discriminate].
Qed.

(** X7: [my_task] ends with an uncaught [UnicodeEncodeError], without
    sleeping, exactly when its argument contains a code point that UTF-8
    cannot encode (a lone surrogate); [UnicodeDecodeError] itself never
    leaves the function. *)
Theorem my_task_unicode_encode_error (contents : str) (w : world) :
  (my_task contents w = (Raise UnicodeEncodeError, w)
   <-> forallb encodable contents = false)
  /\ fst (my_task contents w) <> Raise UnicodeDecodeError.
Proof.
  rewrite my_task_run. split.
  - split.
    + intros H. apply not_true_is_false. intros (b & Hb)%encode_encodable.
      destruct (my_task_rv contents) as [rv|e] eqn:E; [discriminate|].
      injection H as ->. unfold my_task_rv in E.
      destruct (decode_contents contents) as [c|[]] eqn:D; try discriminate.
      apply decode_contents_raise in D as [(_ & D)|[(D & _)|(D & _)]];
        congruence.
    + intros H. unfold my_task_rv, decode_contents.
      destruct (utf8.encode contents) as [b|e] eqn:E.
      * assert (forallb encodable contents = true)
          by (apply encode_encodable; eauto). congruence.
      * apply utf8_encode_raise in E as ->. reflexivity.
  - unfold my_task_rv.
    destruct (decode_contents contents) as [c|[]] eqn:D; cbn; congruence.
Qed.

Lemma my_task_unicode_encode_error_witness :
  my_task [0xD800] (quiet 0) = (Raise UnicodeEncodeError, quiet 0).
Proof.
  apply (proj2 (proj1 (my_task_unicode_encode_error [0xD800] (quiet 0)))).
  reflexivity.
Defined.

(** ** Further properties: the two query routes *)

(** X8: the two query routes split the states between them.  [check]
    answers without a [result] key exactly when [results] renders the
    result page, the job being in [SUCCESS]; whenever the answer of
    [check] carries the key, the job is [PENDING], the value is null and
    [results] answers with the warning and the redirect; and whenever
    [check] raises, it is the [TypeError] of [jsonify] on the exception of
    a job in [FAILURE], for which [results] also answers with the warning
    and the redirect. *)
Theorem check_results_complement
    (celery : gmap string (result pyvalue)) (task : string) :
  let handle := AsyncResult.make task celery in
  match check celery task with
  | Ok r =>
      match json_field "result" r with
      | None =>
          AsyncResult.status handle = SUCCESS
          /\ results celery task = ([], render_template "results.html" handle)
      | Some v =>
          AsyncResult.status handle = PENDING
          /\ v = PyNone
          /\ v = AsyncResult.result handle
          /\ snd (results celery task) = redirect url_for_home
          /\ map category (fst (results celery task)) = ["warning"]
      end
  | Raise e =>
      e = TypeError
      /\ AsyncResult.status handle = FAILURE
      /\ (exists e', AsyncResult.result handle = PyExc e')
      /\ snd (results celery task) = redirect url_for_home
      /\ map category (fst (results celery task)) = ["warning"]
  end.
Proof.
  rewrite check_cases.
  unfold results, AsyncResult.successful, AsyncResult.status,
    AsyncResult.result.
  cbn. destruct (celery !! task) as [[retval|e]|]; cbn; eauto 10.
Qed.

(** X9: an identifier under which nothing was ever submitted is answered
    like a job that is still waiting: in a reachable system [check] reports
    [PENDING] with a null result for it, and [results] flashes the warning
    and redirects. *)
Theorem unknown_task_is_pending (s : system) (task : string) :
  reachable s ->
  jobs s !! task = None ->
  check (store s) task
  = Ok (json_response [("task_id", PyStr task); ("status", PyStr "PENDING");
                       ("result", PyNone)])
  /\ snd (results (store s) task) = redirect url_for_home
  /\ map category (fst (results (store s) task)) = ["warning"].
Proof.
  intros Hreach Hjob.
  assert (store s !! task = None) as Hst.
  { destruct (store s !! task) as [r|] eqn:E; [|reflexivity].
    destruct (reachable_settled s Hreach task r E) as (c & Hc & _).
    congruence. }
  unfold check, results, AsyncResult.successful, AsyncResult.status,
    AsyncResult.result.
  cbn. rewrite Hst. cbn. auto.
Qed.

Lemma unknown_task_is_pending_witness :
  exists s,
    run [Delay job (str_of_string "YQ=="); Deliver job] (initial (quiet 0))
    = Some s
    /\ check (store s) "no-such-task"
       = Ok (json_response [("task_id", PyStr "no-such-task");
                            ("status", PyStr "PENDING"); ("result", PyNone)])
    /\ snd (results (store s) "no-such-task") = redirect url_for_home
    /\ map category (fst (results (store s) "no-such-task")) = ["warning"].
Proof.
  assert (exists s, run [Delay job (str_of_string "YQ=="); Deliver job]
                        (initial (quiet 0)) = Some s /\
                    jobs s !! "no-such-task" = None)
    as (s & Hrun & Hjob) by (vm_compute; eauto).
  exists s. split; [exact Hrun|].
  apply (unknown_task_is_pending s "no-such-task").
  - exists (quiet 0), [Delay job (str_of_string "YQ=="); Deliver job].
    exact Hrun.
  - exact Hjob.
Defined.

(** ** Further properties: deliveries *)

(** X10: delivering a job a second time leaves the stored outcomes as the
    first delivery left them; when the task returns, the second delivery
    sleeps once more. *)
Theorem redelivery_idempotent (s : system) (task : string) (contents : str) :
  jobs s !! task = Some contents ->
  exists s1 s2,
    deliver task s = Some s1
    /\ deliver task s1 = Some s2
    /\ store s2 = store s1
    /\ jobs s2 = jobs s
    /\ (length (slept (env s2)) =
        length (slept (env s))
        + match my_task_rv contents with Ok _ => 2 | Raise _ => 0 end)%nat.
Proof.
  intros Hjob. unfold deliver. rewrite Hjob, my_task_run.
  destruct (my_task_rv contents) as [rv|e] eqn:E;
    (eexists; eexists; split; [reflexivity|]);
    cbn [jobs env store]; rewrite Hjob, my_task_run, E;
    (split; [reflexivity|]); cbn [jobs env store];
    (split; [apply insert_insert_eq|]); (split; [reflexivity|]).
  - cbn. rewrite !length_app. cbn. lia.
  - lia.
Qed.

Lemma redelivery_idempotent_witness :
  let s := mkSystem (<[job := str_of_string "YQ=="]> ∅) ∅ (quiet 0) in
  exists s1 s2,
    deliver job s = Some s1
    /\ deliver job s1 = Some s2
    /\ store s2 = store s1
    /\ jobs s2 = jobs s
    /\ (length (slept (env s2)) = 2)%nat.
Proof.
  apply (redelivery_idempotent
           (mkSystem (<[job := str_of_string "YQ=="]> ∅) ∅ (quiet 0))
           job (str_of_string "YQ==")).
  apply lookup_insert_eq.
Defined.

(** X11: the order in which two jobs are delivered does not matter for
    what is stored: both orders leave the same outcomes in the result
    backend and the same jobs with the broker. *)
Theorem deliveries_commute (s : system) (a b : string) (ca cb : str) :
  jobs s !! a = Some ca ->
  jobs s !! b = Some cb ->
  exists sab sba,
    run [Deliver a; Deliver b] s = Some sab
    /\ run [Deliver b; Deliver a] s = Some sba
    /\ store sab = store sba
    /\ jobs sab = jobs sba.
Proof.
  intros Ha Hb. cbn [run step].
  destruct (deliver_spec a s ca Ha) as (wa & ->).
  destruct (deliver_spec b s cb Hb) as (wb & ->).
  set (sa := mkSystem _ _ wa). set (sb := mkSystem _ _ wb).
  destruct (deliver_spec b sa cb Hb) as (wab & ->).
  destruct (deliver_spec a sb ca Ha) as (wba & ->).
  eexists. eexists. split; [reflexivity|]. split; [reflexivity|].
  cbn. split; [|reflexivity].
  destruct (decide (a = b)) as [->|Hne].
  - assert (ca = cb) as -> by congruence. reflexivity.
  - now apply insert_insert_ne.
Qed.

Lemma deliveries_commute_witness :
  let s := mkSystem (<["t2" := str_of_string "a"]>
                       (<["t1" := str_of_string "YQ=="]> ∅)) ∅ (quiet 0) in
  exists sab sba,
    run [Deliver "t1"; Deliver "t2"] s = Some sab
    /\ run [Deliver "t2"; Deliver "t1"] s = Some sba
    /\ store sab = store sba
    /\ jobs sab = jobs sba.
Proof.
  apply (deliveries_commute
           (mkSystem (<["t2" := str_of_string "a"]>
                        (<["t1" := str_of_string "YQ=="]> ∅)) ∅ (quiet 0))
           "t1" "t2" (str_of_string "YQ==") (str_of_string "a"));
    vm_compute; reflexivity.
Defined.

(** The deliveries among a list of events. *)
Definition deliveries (evs : list event) : nat :=
  length (List.filter (fun e => match e with Deliver _ => true | _ => false end)
                      evs).

Definition in_range (secs : Z) : bool := (5 <=? secs)%Z && (secs <=? 10)%Z.

Lemma step_sleeps (e : event) (s s' : system) :
  step e s = Some s' ->
  (exists more,
      slept (env s') = slept (env s) ++ more
      /\ forallb in_range more = true
      /\ length more = (random_used (env s') - random_used (env s))%nat
      /\ (random_used (env s) <= random_used (env s'))%nat
      /\ (length more <= deliveries [e])%nat).
Proof.
  intros Hstep.
  assert (forall id c, delay id c s = Some s' -> env s' = env s) as Hdelay.
  { intros id c. unfold delay. destruct (jobs s !! id); [discriminate|].
    now intros [= <-]. }
  assert (env s' = env s ->
          exists more,
            slept (env s') = slept (env s) ++ more
            /\ forallb in_range more = true
            /\ length more = (random_used (env s') - random_used (env s))%nat
            /\ (random_used (env s) <= random_used (env s'))%nat
            /\ (length more <= deliveries [e])%nat) as Hsame.
  { intros ->. exists []. rewrite app_nil_r. cbn.
    repeat split; lia. }
  destruct e as [id form|id c|id]; cbn in Hstep.
  - unfold home in Hstep. destruct (handle_form form).
    + eauto.
    + injection Hstep as <-. auto.
  - eauto.
  - unfold deliver in Hstep. destruct (jobs s !! id); [|discriminate].
    rewrite my_task_run in Hstep.
    destruct (my_task_rv _); injection Hstep as <-; [|auto].
    exists [drawn (env s)]. cbn.
    pose proof (drawn_bounds (env s)) as B. unfold in_range.
    split; [reflexivity|]. repeat split; lia.
Qed.

(** X12: whatever is submitted and delivered, the worker only ever sleeps
    for between 5 and 10 seconds at a time, once per call of
    [random.randint], and at most once per delivery. *)
Theorem sleeps_bounded (evs : list event) (s s' : system) :
  run evs s = Some s' ->
  exists more,
    slept (env s') = slept (env s) ++ more
    /\ forallb in_range more = true
    /\ (random_used (env s') = random_used (env s) + length more)%nat
    /\ (length more <= deliveries evs)%nat.
Proof.
  revert s. induction evs as [|e evs IH]; intros s; cbn [run].
  - intros [= <-]. exists []. rewrite app_nil_r. cbn. repeat split; lia.
  - destruct (step e s) as [s1|] eqn:E; [|discriminate]. intros Hrun.
    destruct (step_sleeps e s s1 E) as (m1 & E1 & R1 & L1 & U1 & D1).
    destruct (IH s1 Hrun) as (m2 & E2 & R2 & L2 & D2).
    exists (m1 ++ m2). rewrite E2, E1, <- app_assoc.
    split; [reflexivity|]. rewrite forallb_app, R1, R2, length_app.
    split; [reflexivity|].
    unfold deliveries in *. cbn [List.filter] in *.
    destruct e; cbn [length] in *; lia.
Qed.

Lemma sleeps_bounded_witness :
  exists s' more,
    run [Delay "t1" (str_of_string "YQ=="); Delay "t2" (str_of_string "a");
         Deliver "t1"; Deliver "t2"; Deliver "t1"] (initial (quiet 3)) = Some s'
    /\ slept (env s') = slept (env (initial (quiet 3))) ++ more
    /\ forallb in_range more = true
    /\ (random_used (env s')
        = random_used (env (initial (quiet 3))) + length more)%nat
    /\ (length more <= 3)%nat.
Proof.
  assert (exists s',
             run [Delay "t1" (str_of_string "YQ==");
                  Delay "t2" (str_of_string "a");
                  Deliver "t1"; Deliver "t2"; Deliver "t1"]
                 (initial (quiet 3)) = Some s')
    as (s' & Hrun) by (vm_compute; eauto).
  exists s'.
  destruct (sleeps_bounded _ _ _ Hrun) as (more & H).
  exists more. split; [exact Hrun|exact H].
Defined.

(** ** Further properties: payloads without padding *)

Module unpadded_facts.
Import base64.

(** A byte that the decoder's loop takes as a data character. *)
Definition is_data (b : byte) : bool :=
  let ch := translate_byte "-" "_" "+" "/" b in
  negb (Ascii.eqb ch BASE64_PAD)
  && match table_a2b_base64 ch with Some _ => true | None => false end.

Definition alphabet_is_data_check (b : byte) : bool :=
  implb (urlsafe_alphabet (N_of_ascii b)) (is_data b).

Lemma alphabet_is_data (b : byte) :
  urlsafe_alphabet (N_of_ascii b) = true -> is_data b = true.
Proof.
  assert (alphabet_is_data_check b = true) as H
    by (apply forall_byte; vm_compute; reflexivity).
  unfold alphabet_is_data_check in H. intros E. now rewrite E in H.
Qed.

Definition returns {A : Type} (r : result A) : bool :=
  match r with Ok _ => true | Raise _ => false end.

Lemma returns_emit b r : returns (emit b r) = returns r.
Proof. now destruct r. Qed.

Lemma a2b_loop_data (s : bytes) :
  forall quad_pos leftchar pads,
    (quad_pos < 4)%nat ->
    forallb is_data s = true ->
    returns (a2b_loop (_urlsafe_decode_translation s) quad_pos leftchar pads)
    = ((quad_pos + length s) mod 4 =? 0)%nat.
Proof.
  induction s as [|b s IH]; intros quad_pos leftchar pads Hq.
  - intros _. cbn [_urlsafe_decode_translation translate map a2b_loop length].
    rewrite Nat.add_0_r, Nat.mod_small by exact Hq. now destruct quad_pos.
  - cbn [forallb]. intros [Hb Hs]%andb_prop.
    unfold is_data in Hb. apply andb_prop in Hb as [Hpad Htab].
    apply negb_true_iff in Hpad.
    change (_urlsafe_decode_translation (b :: s))
      with (translate_byte "-" "_" "+" "/" b :: _urlsafe_decode_translation s).
    cbn [a2b_loop]. rewrite Hpad.
    destruct (table_a2b_base64 _) as [v|]; [|discriminate].
    cbn [length].
    destruct quad_pos as [|[|[|[|q]]]]; try lia;
      rewrite ?returns_emit, IH by (assumption || lia);
      try reflexivity.
    replace (3 + S (length s))%nat with (0 + length s + 1 * 4)%nat by lia.
    now rewrite Nat.Div0.mod_add.
Qed.

Lemma utf8_encode_low (p : str) :
  forallb (fun c => c <? 0x80) p = true ->
  utf8.encode p = Ok (map ascii_of_N p).
Proof.
  induction p as [|c p IH]; [reflexivity|].
  cbn [forallb]. intros [Hc Hp]%andb_prop.
  cbn [utf8.encode map]. unfold utf8.encode_char. rewrite Hc, (IH Hp).
  reflexivity.
Qed.

Lemma alphabet_low (c : N) : urlsafe_alphabet c = true -> c < 0x80.
Proof.
  intros H.
  pose proof (alphabet_printable c (or_introl H)) as P.
  unfold printable in P. apply andb_prop in P as [_ P].
  apply N.ltb_lt in P. lia.
Qed.

Lemma alphabet_payload_bytes (p : str) :
  forallb urlsafe_alphabet p = true ->
  utf8.encode p = Ok (map ascii_of_N p)
  /\ forallb is_data (map ascii_of_N p) = true.
Proof.
  intros H. rewrite forallb_forall in H. split.
  - apply utf8_encode_low, forallb_forall. intros c Hc.
    apply N.ltb_lt, alphabet_low, H, Hc.
  - apply forallb_forall. intros b Hb.
    apply in_map_iff in Hb as (c & Hcb & Hc). subst b.
    apply alphabet_is_data. rewrite N_ascii_embedding; [now apply H|].
    pose proof (alphabet_low c (H c Hc)). lia.
Qed.

End unpadded_facts.

Import unpadded_facts.

(** X13: on a payload made of characters of the URL-safe alphabet only,
    without padding, [my_task] ends with an uncaught [binascii.Error]
    exactly when the payload's length is not a multiple of four. *)
Theorem my_task_unpadded_payload (p : str) (w : world) :
  forallb urlsafe_alphabet p = true ->
  (my_task p w = (Raise binascii_Error, w) <-> (length p mod 4 <> 0)%nat).
Proof.
  intros H. destruct (alphabet_payload_bytes p H) as (Henc & Hdata).
  pose proof (a2b_loop_data (map ascii_of_N p) 0 0 0 ltac:(lia) Hdata) as R.
  rewrite length_map in R. cbn [Nat.add] in R.
  rewrite my_task_run. unfold my_task_rv, decode_contents.
  rewrite Henc. cbn [bind].
  unfold base64.urlsafe_b64decode, base64.b64decode, base64.a2b_base64.
  destruct (base64.a2b_loop _ 0 0 0) as [out|e] eqn:E; cbn [bind returns] in *.
  - symmetry in R. apply Nat.eqb_eq in R. split; [|congruence].
    destruct (utf8.decode out) as [c|e] eqn:D;
      [|apply utf8_decode_raise in D as ->]; intros ?; discriminate.
  - symmetry in R. apply Nat.eqb_neq in R.
    apply a2b_loop_raise in E as ->. split; [auto|reflexivity].
Qed.

Lemma my_task_unpadded_payload_witness :
  my_task (str_of_string "YWJjZA") (quiet 0) = (Raise binascii_Error, quiet 0).
Proof.
  apply (my_task_unpadded_payload (str_of_string "YWJjZA") (quiet 0)).
  - reflexivity.
  - cbn. discriminate.
Defined.

(** ** Further properties: characters the decoder skips *)

Module foreign_facts.
Import base64.

(** A byte that the decoder's loop skips: neither the pad character nor a
    character of the table. *)
Definition is_foreign (b : byte) : bool :=
  let ch := translate_byte "-" "_" "+" "/" b in
  negb (Ascii.eqb ch BASE64_PAD)
  && match table_a2b_base64 ch with Some _ => false | None => true end.

(** The code points [urlsafe_b64decode] gives a meaning to: the URL-safe
    alphabet, the two characters [+] and [/] of the standard alphabet, and
    the pad character. *)
Definition accepted (c : N) : bool :=
  urlsafe_alphabet c || (c =? 43) || (c =? 47) || (c =? pad_code).

Definition foreign_check (b : byte) : bool :=
  implb (negb (accepted (N_of_ascii b))) (is_foreign b).

Lemma not_accepted_foreign (b : byte) :
  accepted (N_of_ascii b) = false -> is_foreign b = true.
Proof.
  assert (foreign_check b = true) as H
    by (apply forall_byte; vm_compute; reflexivity).
  unfold foreign_check in H. intros E. now rewrite E in H.
Qed.

Lemma a2b_loop_skip (s1 s2 : bytes) (b : byte) :
  is_foreign b = true ->
  forall quad_pos leftchar pads,
    a2b_loop (_urlsafe_decode_translation (s1 ++ b :: s2)) quad_pos leftchar pads
    = a2b_loop (_urlsafe_decode_translation (s1 ++ s2)) quad_pos leftchar pads.
Proof.
  intros [Hpad Htab]%andb_prop. apply negb_true_iff in Hpad.
  induction s1 as [|x s1 IH]; intros quad_pos leftchar pads.
  - change (_urlsafe_decode_translation ([] ++ b :: s2))
      with (translate_byte "-" "_" "+" "/" b :: _urlsafe_decode_translation s2).
    cbn [a2b_loop app]. rewrite Hpad.
    now destruct (table_a2b_base64 _).
  - change (_urlsafe_decode_translation ((x :: s1) ++ b :: s2))
      with (translate_byte "-" "_" "+" "/" x
            :: _urlsafe_decode_translation (s1 ++ b :: s2)).
    change (_urlsafe_decode_translation ((x :: s1) ++ s2))
      with (translate_byte "-" "_" "+" "/" x
            :: _urlsafe_decode_translation (s1 ++ s2)).
    cbn [a2b_loop]. set (ch := translate_byte "-" "_" "+" "/" x).
    destruct (Ascii.eqb ch BASE64_PAD).
    { destruct (2 <=? quad_pos)%nat; [|apply IH].
      destruct (4 <=? quad_pos + S pads)%nat; [reflexivity|apply IH]. }
    destruct (table_a2b_base64 ch) as [v|]; [|apply IH].
    destruct quad_pos as [|[|[|q]]]; now rewrite IH.
Qed.

Lemma utf8_encode_app (p1 p2 : str) :
  utf8.encode (p1 ++ p2) =
  let* b1 := utf8.encode p1 in
  let* b2 := utf8.encode p2 in
  Ok (b1 ++ b2).
Proof.
  induction p1 as [|c p1 IH]; cbn [app utf8.encode bind].
  - now destruct (utf8.encode p2).
  - rewrite IH. destruct (utf8.encode_char c); cbn [bind]; [|reflexivity].
    destruct (utf8.encode p1); cbn [bind]; [|reflexivity].
    destruct (utf8.encode p2); cbn [bind]; [|reflexivity].
    now rewrite app_assoc.
Qed.

Lemma decode_contents_skip (p1 p2 : str) (c : N) :
  c < 0x80 ->
  accepted c = false ->
  decode_contents (p1 ++ c :: p2) = decode_contents (p1 ++ p2).
Proof.
  intros Hc Hacc. unfold decode_contents.
  rewrite !utf8_encode_app. cbn [utf8.encode].
  unfold utf8.encode_char at 1. apply N.ltb_lt in Hc as Hc'. rewrite Hc'.
  destruct (utf8.encode p1) as [b1|]; cbn [bind]; [|reflexivity].
  destruct (utf8.encode p2) as [b2|]; cbn [bind app]; [|reflexivity].
  unfold urlsafe_b64decode, b64decode, a2b_base64.
  rewrite a2b_loop_skip; [reflexivity|].
  apply not_accepted_foreign. rewrite N_ascii_embedding; [exact Hacc|lia].
Qed.

End foreign_facts.

Import foreign_facts.

(** X14: [my_task] does not see a character of its argument that base64
    gives no meaning to: an ASCII character other than a letter, a digit,
    [-], [_], [+], [/] and [=] (a space or a line break, say) can be added
    anywhere in a payload without changing what [my_task] does. *)
Theorem my_task_skips_foreign (p1 p2 : str) (c : N) (w : world) :
  c < 0x80 ->
  accepted c = false ->
  my_task (p1 ++ c :: p2) w = my_task (p1 ++ p2) w.
Proof.
  intros Hc Hacc. rewrite !my_task_run. unfold my_task_rv.
  now rewrite decode_contents_skip.
Qed.

Lemma my_task_skips_foreign_witness :
  my_task (str_of_string "YQpi
CmM=") (quiet 0) = my_task (str_of_string "YQpiCmM=") (quiet 0).
Proof.
  apply (my_task_skips_foreign (str_of_string "YQpi") (str_of_string "CmM=")
                               10 (quiet 0)).
  - reflexivity.
  - reflexivity.
Defined.

(** ** More of the program: the home route and the configuration *)

(** The form of a request to [/] as [home] uses it: whether
    [validate_on_submit()] holds, and the bytes of the uploaded file. *)
Record MyForm : Type := mkForm {
  validate_on_submit : bool;
  file : bytes
}.

(** [render_template('index.html', form=form)]. *)
Inductive page : Type := index_html (form : MyForm).

Definition queued_markup (task_id : string) : string :=
  "Queued task <code><a href=" +:+ dquote +:+ url_for_results task_id
  +:+ dquote +:+ ">" +:+ task_id +:+ "</a></code>.".

(** The route [/] as a whole: the messages flashed and the page, or the
    exception that leaves the view, together with the system afterwards;
    [task_id] is the identifier Celery draws when the task is queued, and
    [None] stands for a draw that repeats an identifier. *)
Definition home_view (form : MyForm) (task_id : string) (s : system)
  : option (result (list flashed * page) * system) :=
  if negb (validate_on_submit form) then Some (Ok ([], index_html form), s)
  else
    match handle_form (file form) with
    | Raise e => Some (Raise e, s)
    | Ok args =>
        match delay task_id args s with
        | None => None
        | Some s' =>
            Some (Ok ([flash (queued_markup task_id) "message"],
                      index_html form), s')
        end
    end.

(** X15: the home route.  A form that does not validate queues nothing
    and flashes nothing.  A form that validates queues exactly one job,
    under the new identifier, whose payload decodes to the uploaded bytes;
    the view returns without running the task (nothing is slept, nothing is
    stored), flashes the link to the job's result page, and the job is
    [PENDING] right afterwards. *)
Theorem home_view_submits (form : MyForm) (task_id : string) (s : system) :
  reachable s ->
  jobs s !! task_id = None ->
  if validate_on_submit form then
    exists payload s',
      home_view form task_id s
      = Some (Ok ([flash (queued_markup task_id) "message"], index_html form),
              s')
      /\ home task_id (file form) s = Some s'
      /\ jobs s' = <[task_id := payload]> (jobs s)
      /\ store s' = store s
      /\ env s' = env s
      /\ decode_contents payload = utf8.decode (file form)
      /\ status_of s' task_id = PENDING
  else
    home_view form task_id s = Some (Ok ([], index_html form), s).
Proof.
  intros Hreach Hfresh. unfold home_view, home.
  destruct (validate_on_submit form); [|reflexivity].
  cbn [negb]. rewrite handle_form_payload. unfold delay. rewrite Hfresh.
  eexists. eexists. split; [reflexivity|]. split; [reflexivity|].
  cbn [jobs store env]. repeat (split; [reflexivity|]).
  split; [apply decode_contents_payload|].
  unfold status_of, AsyncResult.status. cbn.
  destruct (store s !! task_id) as [r|] eqn:E; [|reflexivity].
  destruct (reachable_settled s Hreach task_id r E) as (c & Hc & _).
  congruence.
Qed.

Lemma home_view_submits_witness :
  exists payload s',
    home_view (mkForm true (bytes_of_string "hi")) job (initial (quiet 0))
    = Some (Ok ([flash (queued_markup job) "message"],
                index_html (mkForm true (bytes_of_string "hi"))), s')
    /\ home job (bytes_of_string "hi") (initial (quiet 0)) = Some s'
    /\ jobs s' = <[job := payload]> (jobs (initial (quiet 0)))
    /\ store s' = store (initial (quiet 0))
    /\ env s' = env (initial (quiet 0))
    /\ decode_contents payload = utf8.decode (bytes_of_string "hi")
    /\ status_of s' job = PENDING.
Proof.
  apply (home_view_submits (mkForm true (bytes_of_string "hi")) job
                           (initial (quiet 0))).
  - exists (quiet 0), []. reflexivity.
  - apply lookup_empty.
Defined.

(** The names of the configuration options. *)
Definition CELERY_BROKER_URL : string := "CELERY_BROKER_URL".
Definition CELERY_RESULT_BACKEND : string := "CELERY_RESULT_BACKEND".
Definition SECRET_KEY : string := "SECRET_KEY".

(** A configuration value: a string of the environment, or the bytes of
    [os.urandom]. *)
Inductive config_value : Type :=
  | config_str (s : string)
  | config_bytes (b : bytes).

(** [KeyError], with the key that was not found. *)
Inductive KeyError : Type := key_error (key : string).

(** The dictionary [config]: [os.environ[...]] raises [KeyError] on a
    missing variable, [os.environ.get(SECRET_KEY, os.urandom(8))] falls
    back on the random bytes, which are drawn in any case. *)
Definition config (environ : gmap string string) (urandom : bytes)
  : KeyError + gmap string config_value :=
  match environ !! CELERY_BROKER_URL with
  | None => inl (key_error CELERY_BROKER_URL)
  | Some broker_url =>
      match environ !! CELERY_RESULT_BACKEND with
      | None => inl (key_error CELERY_RESULT_BACKEND)
      | Some result_backend =>
          let secret_key :=
            match environ !! SECRET_KEY with
            | Some k => config_str k
            | None => config_bytes urandom
            end in
          inr (<[SECRET_KEY := secret_key]>
                 (<[CELERY_RESULT_BACKEND := config_str result_backend]>
                    (<[CELERY_BROKER_URL := config_str broker_url]> ∅)))
      end
  end.

(** [Celery(app.import_name, broker=..., backend=...)]. *)
Record Celery : Type := mkCelery {
  main : string;
  broker : config_value;
  backend : config_value
}.

(** The module's start-up: [app.config.update(config)] on top of Flask's
    default configuration, then the Celery application built from
    [app.config]. *)
Definition celery (defaults : gmap string config_value)
    (environ : gmap string string) (urandom : bytes) : KeyError + Celery :=
  match config environ urandom with
  | inl e => inl e
  | inr cfg =>
      let app_config := cfg ∪ defaults in
      match app_config !! CELERY_BROKER_URL with
      | None => inl (key_error CELERY_BROKER_URL)
      | Some b =>
          match app_config !! CELERY_RESULT_BACKEND with
          | None => inl (key_error CELERY_RESULT_BACKEND)
          | Some r => inr (mkCelery "wsgi" b r)
          end
      end
  end.

(** X16: start-up fails with [KeyError] exactly when the broker or the
    result backend is missing from the environment, naming the broker
    first; otherwise the Celery application gets the environment's two
    values whatever Flask's defaults hold, and the configuration has the
    three keys, with [SECRET_KEY] the environment's value when it is set
    and the random bytes otherwise. *)
Theorem celery_from_environment
    (defaults : gmap string config_value) (environ : gmap string string)
    (urandom : bytes) :
  match environ !! CELERY_BROKER_URL, environ !! CELERY_RESULT_BACKEND with
  | None, _ =>
      celery defaults environ urandom = inl (key_error CELERY_BROKER_URL)
  | Some _, None =>
      celery defaults environ urandom = inl (key_error CELERY_RESULT_BACKEND)
  | Some b, Some r =>
      celery defaults environ urandom
      = inr (mkCelery "wsgi" (config_str b) (config_str r))
      /\ exists cfg,
          config environ urandom = inr cfg
          /\ dom cfg = {[CELERY_BROKER_URL; CELERY_RESULT_BACKEND; SECRET_KEY]}
          /\ cfg !! SECRET_KEY
             = Some match environ !! SECRET_KEY with
                    | Some k => config_str k
                    | None => config_bytes urandom
                    end
  end.
Proof.
  unfold celery, config.
  destruct (environ !! CELERY_BROKER_URL) as [b|]; [|reflexivity].
  destruct (environ !! CELERY_RESULT_BACKEND) as [r|]; [|reflexivity].
  cbn zeta.
  set (k := match environ !! SECRET_KEY with
            | Some k => config_str k
            | None => config_bytes urandom
            end).
  set (cfg := <[SECRET_KEY := k]> _).
  assert (cfg !! CELERY_BROKER_URL = Some (config_str b)) as Hb
    by (subst cfg; now simplify_map_eq).
  assert (cfg !! CELERY_RESULT_BACKEND = Some (config_str r)) as Hr
    by (subst cfg; now simplify_map_eq).
  rewrite (lookup_union_Some_l _ _ _ _ Hb), (lookup_union_Some_l _ _ _ _ Hr).
  split; [reflexivity|]. exists cfg. split; [reflexivity|]. split.
  - subst cfg. rewrite !dom_insert_L, dom_empty_L. set_solver.
  - subst cfg. now simplify_map_eq.
Qed.

(** ** Further properties: what follows the padding *)

Module tail_facts.
Import base64 base64_facts.

(** An encoded upload as the decoder's loop sees it. *)
Definition seen_payload (form : bytes) : bytes :=
  _urlsafe_decode_translation (urlsafe_b64encode form).

Lemma seen_payload_three x y z rest :
  seen_payload (x :: y :: z :: rest) =
  seen (s1 x) :: seen (s2 x y) :: seen (s3 y z) :: seen (s4 z)
  :: seen_payload rest.
Proof. reflexivity. Qed.

(** Decoding an encoded upload that is followed by more bytes: after a
    padded upload the rest is not read; after an upload of a multiple of
    three bytes the decoder goes on with the rest. *)
Lemma a2b_loop_payload_tail (form tail : bytes) :
  a2b_loop (seen_payload form ++ tail) 0 0 0 =
  if (length form mod 3 =? 0)%nat
  then let* rest := a2b_loop tail 0 0 0 in Ok (form ++ rest)
  else Ok form.
Proof.
  induction form as [|x|x y|x y z rest IH] using bytes_ind3.
  - cbn [seen_payload length app Nat.modulo]. cbn.
    now destruct (a2b_loop tail 0 0 0).
  - destruct (sextet_bounds x x) as (B1 & _ & B2 & _).
    destruct (regroup x x) as (_ & R & _).
    change (seen_payload [x] ++ tail)
      with (seen (s1 x) :: seen (s2_tail x) :: BASE64_PAD :: BASE64_PAD :: tail).
    rewrite !a2b_loop_seen by assumption.
    cbn. rewrite R. reflexivity.
  - destruct (sextet_bounds x y) as (B1 & B2 & _).
    destruct (sextet_bounds y y) as (_ & _ & _ & _ & B3 & _).
    destruct (regroup x y) as (R1 & _ & L2 & _).
    destruct (regroup y y) as (_ & _ & _ & _ & R2 & _).
    change (seen_payload [x; y] ++ tail)
      with (seen (s1 x) :: seen (s2 x y) :: seen (s3_tail y)
            :: BASE64_PAD :: tail).
    rewrite !a2b_loop_seen by assumption.
    rewrite L2. cbn. rewrite R1, R2. reflexivity.
  - destruct (sextet_bounds x y) as (B1 & B2 & _).
    destruct (sextet_bounds y z) as (_ & _ & _ & B3 & _).
    destruct (sextet_bounds z z) as (_ & _ & _ & _ & _ & B4).
    destruct (regroup x y) as (R1 & _ & L2 & _).
    destruct (regroup y z) as (_ & _ & _ & R2 & _ & L3 & _).
    destruct (regroup z z) as (_ & _ & _ & _ & _ & _ & R3).
    rewrite seen_payload_three. cbn [app].
    rewrite !a2b_loop_seen by assumption.
    rewrite IH, L2, L3.
    replace (length (x :: y :: z :: rest) mod 3)%nat
      with (length rest mod 3)%nat.
    2:{ cbn [length].
        replace (S (S (S (length rest)))) with (length rest + 1 * 3)%nat by lia.
        now rewrite Nat.Div0.mod_add. }
    destruct (length rest mod 3 =? 0)%nat.
    + destruct (a2b_loop tail 0 0 0); cbn; now rewrite ?R1, ?R2, ?R3.
    + cbn. now rewrite R1, R2, R3.
Qed.

End tail_facts.

Import tail_facts.

(** X17: [my_task] does not read what follows the padding: when the
    upload's length is not a multiple of three, so that its payload ends
    in [=], any ASCII text added after the payload leaves what [my_task]
    does unchanged. *)
Theorem my_task_ignores_tail (form : bytes) (junk : str) (w : world) :
  (length form mod 3 <> 0)%nat ->
  forallb (fun c => c <? 0x80) junk = true ->
  my_task (payload_of form ++ junk) w = my_task (payload_of form) w.
Proof.
  intros Hlen Hjunk. rewrite !my_task_run.
  assert (decode_contents (payload_of form ++ junk)
          = decode_contents (payload_of form)) as E; [|unfold my_task_rv; now rewrite E].
  unfold decode_contents. rewrite utf8_encode_app.
  unfold payload_of.
  rewrite (utf8_encode_ascii _ (urlsafe_b64encode_ascii form)).
  rewrite (utf8_encode_low _ Hjunk). cbn [bind].
  rewrite base64_facts.urlsafe_b64decode_b64encode.
  unfold base64.urlsafe_b64decode, base64.b64decode, base64.a2b_base64,
    base64._urlsafe_decode_translation, base64.translate.
  rewrite map_app.
  pose proof (a2b_loop_payload_tail form
                (base64._urlsafe_decode_translation (map ascii_of_N junk)))
    as T.
  unfold seen_payload, base64._urlsafe_decode_translation, base64.translate in T.
  rewrite T. apply Nat.eqb_neq in Hlen. now rewrite Hlen.
Qed.

Lemma my_task_ignores_tail_witness :
  my_task (payload_of (bytes_of_string "a") ++ str_of_string "!!rest")
          (quiet 0)
  = my_task (payload_of (bytes_of_string "a")) (quiet 0).
Proof.
  apply (my_task_ignores_tail (bytes_of_string "a") (str_of_string "!!rest")
                              (quiet 0)).
  - cbn. discriminate.
  - reflexivity.
Defined.

(** ** Further properties: text uploads *)

Module utf8_facts.

(** [P] holds for the [fuel] numbers from [i] on. *)
Fixpoint upto (fuel : nat) (i : N) (P : N -> bool) : bool :=
  match fuel with
  | O => true
  | S f => if P i then upto f (N.succ i) P else false
  end.

Lemma upto_spec (P : N -> bool) (fuel : nat) :
  forall i, upto fuel i P = true ->
            forall x, i <= x < i + N.of_nat fuel -> P x = true.
Proof.
  induction fuel as [|f IH]; intros i H x Hx; [lia|].
  cbn [upto] in H. destruct (P i) eqn:E; [|discriminate].
  destruct (N.eq_dec x i) as [->|Hne]; [exact E|].
  apply (IH (N.succ i) H). lia.
Qed.

(** The bytes [bs] are one well-formed sequence for the code point [c],
    as [utf8.decode] tests it. *)
Definition consumes (bs : bytes) (c : N) : bool :=
  match bs with
  | [b0] =>
      let c0 := N_of_ascii b0 in (c0 <? 0x80) && (c0 =? c)
  | [b0; b1] =>
      let c0 := N_of_ascii b0 in
      let c1 := N_of_ascii b1 in
      negb (c0 <? 0x80) && negb (c0 <? 0xC2) && (c0 <? 0xE0)
      && utf8.is_cont c1
      && (N.lor (N.shiftl (N.land c0 0x1f) 6) (utf8.low6 c1) =? c)
  | [b0; b1; b2] =>
      let c0 := N_of_ascii b0 in
      let c1 := N_of_ascii b1 in
      let c2 := N_of_ascii b2 in
      negb (c0 <? 0x80) && negb (c0 <? 0xC2) && negb (c0 <? 0xE0)
      && (c0 <? 0xF0)
      && (utf8.is_cont c1 && utf8.is_cont c2
          && negb ((c0 =? 0xE0) && (c1 <? 0xA0))
          && negb ((c0 =? 0xED) && (0xA0 <=? c1)))
      && (N.lor (N.shiftl (N.land c0 0x0f) 12)
                (N.lor (N.shiftl (utf8.low6 c1) 6) (utf8.low6 c2)) =? c)
  | [b0; b1; b2; b3] =>
      let c0 := N_of_ascii b0 in
      let c1 := N_of_ascii b1 in
      let c2 := N_of_ascii b2 in
      let c3 := N_of_ascii b3 in
      negb (c0 <? 0x80) && negb (c0 <? 0xC2) && negb (c0 <? 0xE0)
      && negb (c0 <? 0xF0) && (c0 <? 0xF5)
      && (utf8.is_cont c1 && utf8.is_cont c2 && utf8.is_cont c3
          && negb ((c0 =? 0xF0) && (c1 <? 0x90))
          && negb ((c0 =? 0xF4) && (0x90 <=? c1)))
      && (N.lor (N.shiftl (N.land c0 0x07) 18)
                (N.lor (N.shiftl (utf8.low6 c1) 12)
                       (N.lor (N.shiftl (utf8.low6 c2) 6) (utf8.low6 c3)))
          =? c)
  | _ => false
  end.

Lemma consumes_decode (bs : bytes) (c : N) :
  consumes bs c = true ->
  forall rest, utf8.decode (bs ++ rest) = utf8.emit c (utf8.decode rest).
Proof.
  intros H rest.
  destruct bs as [|b0 [|b1 [|b2 [|b3 [|b4 bs]]]]]; try discriminate;
    cbn [consumes] in H; cbv zeta in H.
  - apply andb_prop in H as [H0 H1]. apply N.eqb_eq in H1.
    cbn [app utf8.decode]. cbv zeta. now rewrite H0, H1.
  - apply andb_prop in H as [H Hv]. apply N.eqb_eq in Hv.
    repeat (apply andb_prop in H as [H ?]).
    repeat match goal with
           | E : negb _ = true |- _ => apply negb_true_iff in E
           end.
    cbn [app utf8.decode]. cbv zeta.
    repeat match goal with E : _ = _ :> bool |- _ => rewrite E; clear E end.
    now rewrite Hv.
  - apply andb_prop in H as [H Hv]. apply N.eqb_eq in Hv.
    apply andb_prop in H as [H Hc].
    repeat (apply andb_prop in H as [H ?]).
    repeat match goal with
           | E : negb _ = true |- _ => apply negb_true_iff in E
           end.
    cbn [app utf8.decode]. cbv zeta.
    repeat match goal with E : (_ <? _) = _ |- _ => rewrite E; clear E end.
    now rewrite Hc, Hv.
  - apply andb_prop in H as [H Hv]. apply N.eqb_eq in Hv.
    apply andb_prop in H as [H Hc].
    repeat (apply andb_prop in H as [H ?]).
    repeat match goal with
           | E : negb _ = true |- _ => apply negb_true_iff in E
           end.
    cbn [app utf8.decode]. cbv zeta.
    repeat match goal with E : (_ <? _) = _ |- _ => rewrite E; clear E end.
    now rewrite Hc, Hv.
Qed.

Definition encodes_well (c : N) : bool :=
  match utf8.encode_char c with
  | Ok bs => consumes bs c
  | Raise _ => true
  end.

Lemma encodes_well_bmp_all :
  upto (N.to_nat 0x10000) 0 encodes_well = true.
Proof. vm_compute. reflexivity. Qed.

Lemma encodes_well_bmp (c : N) : c < 0x10000 -> encodes_well c = true.
Proof.
  intros H. apply (upto_spec _ _ _ encodes_well_bmp_all).
  rewrite N2Nat.id. lia.
Qed.

End utf8_facts.

Module astral_facts.
Import utf8_facts.

(** The two leading bytes of a four-byte sequence, from the bits of the
    code point above the twelve lowest. *)
Definition high_check (h : N) : bool :=
  let c0 := N_of_ascii (ascii_of_N (N.lor 0xF0 (N.shiftr h 6))) in
  let c1 := N_of_ascii (utf8.cont h) in
  negb (c0 <? 0x80) && negb (c0 <? 0xC2) && negb (c0 <? 0xE0)
  && negb (c0 <? 0xF0) && (c0 <? 0xF5)
  && utf8.is_cont c1
  && negb ((c0 =? 0xF0) && (c1 <? 0x90))
  && negb ((c0 =? 0xF4) && (0x90 <=? c1))
  && (N.lor (N.shiftl (N.land c0 0x07) 18) (N.shiftl (utf8.low6 c1) 12)
      =? N.shiftl h 12).

(** The two trailing bytes, from the twelve lowest bits. *)
Definition low_check (l : N) : bool :=
  let c2 := N_of_ascii (utf8.cont (N.shiftr l 6)) in
  let c3 := N_of_ascii (utf8.cont l) in
  utf8.is_cont c2 && utf8.is_cont c3
  && (N.lor (N.shiftl (utf8.low6 c2) 6) (utf8.low6 c3) =? l).

Lemma high_check_all : upto (N.to_nat 256) 16 high_check = true.
Proof. vm_compute. reflexivity. Qed.

Lemma low_check_all : upto (N.to_nat 4096) 0 low_check = true.
Proof. vm_compute. reflexivity. Qed.

Lemma high_check_ok (h : N) : 16 <= h < 272 -> high_check h = true.
Proof.
  intros H. apply (upto_spec _ _ _ high_check_all). rewrite N2Nat.id. lia.
Qed.

Lemma low_check_ok (l : N) : l < 4096 -> low_check l = true.
Proof.
  intros H. apply (upto_spec _ _ _ low_check_all). rewrite N2Nat.id. lia.
Qed.

Lemma cont_low (x y : N) :
  N.land x 0x3f = N.land y 0x3f -> utf8.cont x = utf8.cont y.
Proof. unfold utf8.cont. now intros ->. Qed.

Lemma low12_split (c : N) :
  N.lor (N.shiftl (N.shiftr c 12) 12) (N.land c 4095) = c.
Proof.
  change 4095 with (N.ones 12).
  rewrite <- N.ldiff_ones_r. apply N.lor_ldiff_and.
Qed.

Lemma low12_bound (c : N) : N.land c 4095 < 4096.
Proof.
  change 4095 with (N.ones 12). rewrite N.land_ones.
  apply N.mod_lt. discriminate.
Qed.

Lemma high_bound (c : N) :
  0x10000 <= c < 0x110000 -> 16 <= N.shiftr c 12 < 272.
Proof.
  intros [Hlo Hhi]. rewrite N.shiftr_div_pow2. change (2 ^ 12) with 4096.
  split.
  - apply N.div_le_lower_bound; [discriminate|lia].
  - apply N.Div0.div_lt_upper_bound. lia.
Qed.

Lemma low12_cont (c : N) :
  utf8.cont c = utf8.cont (N.land c 4095)
  /\ utf8.cont (N.shiftr c 6) = utf8.cont (N.shiftr (N.land c 4095) 6).
Proof.
  split; apply cont_low.
  - now rewrite <- N.land_assoc.
  - rewrite N.shiftr_land. change (N.shiftr 4095 6) with 63.
    now rewrite <- N.land_assoc.
Qed.

Lemma encodes_well_astral (c : N) :
  0x10000 <= c < 0x110000 -> encodes_well c = true.
Proof.
  intros Hc. unfold encodes_well, utf8.encode_char.
  destruct (N.ltb_spec c 0x80); [lia|].
  destruct (N.ltb_spec c 0x800); [lia|].
  destruct (N.leb_spec c 0xDFFF); [lia|]. rewrite andb_false_r.
  destruct (N.ltb_spec c 0x10000); [lia|].
  destruct (N.ltb_spec c 0x110000); [|lia].
  pose proof (high_check_ok _ (high_bound c Hc)) as Hh.
  pose proof (low_check_ok _ (low12_bound c)) as Hl.
  destruct (low12_cont c) as (E3 & E2).
  replace (N.shiftr c 18) with (N.shiftr (N.shiftr c 12) 6)
    by now rewrite N.shiftr_shiftr.
  rewrite E2, E3.
  set (h := N.shiftr c 12) in *. set (l := N.land c 4095) in *.
  unfold high_check in Hh. unfold low_check in Hl. cbv zeta in Hh, Hl.
  cbn [consumes]. cbv zeta. unfold utf8.is_cont in *.
  repeat (apply andb_prop in Hh as [Hh ?]).
  repeat (apply andb_prop in Hl as [Hl ?]).
  repeat match goal with
         | E : (_ =? _) = true |- _ => apply N.eqb_eq in E
         end.
  repeat match goal with
         | E : _ = true |- _ => rewrite E; clear E
         end.
  cbn [andb]. apply N.eqb_eq.
  rewrite N.lor_assoc.
  repeat match goal with
         | E : N.lor _ _ = _ |- _ => rewrite E; clear E
         end.
  subst h l. apply low12_split.
Qed.

(** Every code point that can be encoded is decoded back from its bytes,
    whatever follows them. *)
Lemma encode_char_decode (c : N) (bs rest : bytes) :
  utf8.encode_char c = Ok bs ->
  utf8.decode (bs ++ rest) = utf8.emit c (utf8.decode rest).
Proof.
  intros E. apply consumes_decode.
  assert (encodes_well c = true) as H.
  { destruct (N.lt_ge_cases c 0x10000); [now apply encodes_well_bmp|].
    destruct (N.lt_ge_cases c 0x110000); [now apply encodes_well_astral|].
    exfalso. revert E. unfold utf8.encode_char.
    destruct (N.ltb_spec c 0x80); [lia|].
    destruct (N.ltb_spec c 0x800); [lia|].
    destruct (N.leb_spec c 0xDFFF); [lia|]. rewrite andb_false_r.
    destruct (N.ltb_spec c 0x10000); [lia|].
    destruct (N.ltb_spec c 0x110000); [lia|discriminate]. }
  unfold encodes_well in H. now rewrite E in H.
Qed.

Lemma utf8_round_trip (t : str) (bs : bytes) :
  utf8.encode t = Ok bs -> utf8.decode bs = Ok t.
Proof.
  revert bs. induction t as [|c t IH]; intros bs; cbn [utf8.encode].
  - now intros [= <-].
  - destruct (utf8.encode_char c) as [b|] eqn:Ec; cbn [bind]; [|discriminate].
    destruct (utf8.encode t) as [bt|]; cbn [bind]; [|discriminate].
    intros [= <-]. rewrite (encode_char_decode c b bt Ec), (IH bt eq_refl).
    reflexivity.
Qed.

End astral_facts.

Import astral_facts.

(** X18: uploading a text.  For every text [t] that UTF-8 can encode (any
    code points but lone surrogates), the upload of its UTF-8 bytes makes
    [my_task] return, after one sleep, [lines] equal to the number of
    line feeds in [t] and [characters] equal to the number of code points
    of [t], however many bytes each of them takes. *)
Theorem my_task_text_upload (t : str) (w : world) :
  forallb encodable t = true ->
  exists form payload,
    utf8.encode t = Ok form
    /\ handle_form form = Ok payload
    /\ my_task payload w =
       (Ok (PyDict [("lines", Z.of_nat (count_occ N.eq_dec t newline));
                    ("characters", Z.of_nat (length t))]),
        after_sleep w).
Proof.
  intros (form & Hform)%encode_encodable.
  exists form, (payload_of form). split; [exact Hform|].
  split; [apply handle_form_payload|].
  rewrite my_task_run, my_task_rv_payload, (utf8_round_trip t form Hform).
  reflexivity.
Qed.

Lemma my_task_text_upload_witness :
  exists form payload,
    utf8.encode [0x20AC; 10; 0x1F600; 0xE9] = Ok form
    /\ handle_form form = Ok payload
    /\ my_task payload (quiet 0) =
       (Ok (PyDict [("lines", 1%Z); ("characters", 4%Z)]),
        after_sleep (quiet 0)).
Proof.
  apply (my_task_text_upload [0x20AC; 10; 0x1F600; 0xE9] (quiet 0)).
  reflexivity.
Defined.
